(** * Snapshot service API: the four request handlers of [cmd/main.go]

    The handlers [listFiles], [listKeys], [latestSnapshot] and
    [snapshotInfo] are embedded as computations in a small handler monad
    that records every call made on the object store and stops at the
    first [c.JSON(...); return].  The object store, the JSON decoder and
    the iteration order of a Go map are collaborators of the handlers and
    are taken as section variables. *)

From Stdlib Require Import ZArith List String Ascii Bool Lia.
From stdpp Require Import gmap strings list fin_maps.

Local Open Scope Z_scope.

(** ** Constants of the Go libraries used by the handlers *)

Module http.
Definition StatusOK : Z := 200.
Definition StatusNotFound : Z := 404.
Definition StatusInternalServerError : Z := 500.
End http.

Module time.
(** [time.Duration] is an [int64] count of nanoseconds. *)
Definition Duration : Type := Z.
Definition Nanosecond : Duration := 1.
Definition Microsecond : Duration := 1000 * Nanosecond.
Definition Millisecond : Duration := 1000 * Microsecond.
Definition Second : Duration := 1000 * Millisecond.
Definition Minute : Duration := 60 * Second.
End time.

(** ** Errors

    A Go [error] either implements [awserr.Error] (and then carries a
    code) or it does not.  [Error_] is the method [Error()]. *)

Inductive error : Type :=
| awserr_Error (code : string) (text : string)
| other_error (text : string).

Definition Error_ (e : error) : string :=
  match e with
  | awserr_Error _ text => text
  | other_error text => text
  end.

(** ** The S3 data the handlers read *)

Module s3.
Definition ErrCodeNoSuchKey : string := "NoSuchKey".

(** One entry of a listing.  The handlers dereference [Key] and [Size]
    and pass [LastModified] through as it is. *)
Record Object : Type := {
  Key : string;
  Size : Z;
  LastModified : option Z
}.

Record ListObjectsV2Input : Type := {
  Bucket : string;
  Prefix : option string
}.

Record ListObjectsV2Output : Type := {
  Contents : list Object
}.

Record GetObjectInput : Type := {
  goi_Bucket : string;
  goi_Key : string
}.

(** [Body] is a reader; [ReadAll] is what [ioutil.ReadAll] gets from it. *)
Record GetObjectOutput : Type := {
  ReadAll : string * option error
}.
End s3.
Import s3.

(** What a session gives access to during one request.  [ListObjectsV2]
    answers with one page; [ListObjectsV2Pages_feed] is the sequence of
    pages the pager obtains, with the error that ended it, if any.
    [Presign] is the link the store's signer issues within the request
    at hand; a link carries its signing time, so the links of two
    requests are not to be compared. *)
Record Session : Type := {
  ListObjectsV2 : ListObjectsV2Input -> ListObjectsV2Output * option error;
  ListObjectsV2Pages_feed : ListObjectsV2Input -> list ListObjectsV2Output * option error;
  GetObject : GetObjectInput -> GetObjectOutput * option error;
  Presign : GetObjectInput -> time.Duration -> string * option error
}.

(** ** Responses *)

(** A decoded JSON document ([interface{}] after [json.Unmarshal]). *)
#[warnings="-register-all"]
Inductive JSON : Type :=
| JNull
| JBool (b : bool)
| JNumber (digits : string)
| JString (s : string)
| JArray (items : list JSON)
| JObject (members : list (string * JSON)).

(** One element of the array answered by [listFiles]. *)
Record File : Type := {
  last_modified : option Z;
  size : Z;
  filename : string;
  url : string
}.

Inductive Body : Type :=
| H_error (text : string)
| H_message (text : string)
| H_dirs (dirs : list string)
| H_latest (url : string) (size : Z) (last_modified : option Z)
| files_body (files : list File)
| data_body (data : JSON).

Record Response : Type := {
  status : Z;
  body : Body
}.

(** ** The handler monad *)

Inductive Call : Type :=
| CallListObjectsV2 (input : ListObjectsV2Input)
| CallListObjectsV2Pages (input : ListObjectsV2Input)
| CallGetObject (input : GetObjectInput)
| CallPresign (input : GetObjectInput) (expire : time.Duration).

Inductive Step (A : Type) : Type :=
| Next (a : A)
| Responded (r : Response).
Arguments Next {A} a.
Arguments Responded {A} r.

Definition Handler (A : Type) : Type := list Call -> Step A * list Call.

Definition ret {A : Type} (a : A) : Handler A := fun log => (Next a, log).

Definition bind {A B : Type} (m : Handler A) (f : A -> Handler B) : Handler B :=
  fun log =>
    match m log with
    | (Next a, log') => f a log'
    | (Responded r, log') => (Responded r, log')
    end.

(** [c.JSON(status, body)] followed by leaving the handler. *)
Definition JSON_return {A : Type} (status : Z) (body : Body) : Handler A :=
  fun log => (Responded {| status := status; body := body |}, log).

(** A call on the store: recorded, then answered. *)
Definition call {A : Type} (c : Call) (answer : A) : Handler A :=
  fun log => (Next answer, log ++ [c]).

Declare Scope handler_scope.
Delimit Scope handler_scope with handler.
Notation "'let*' p ':=' m 'in' k" := (bind m (fun p => k))
  (at level 10, p pattern, m at level 100, k at level 200) : handler_scope.

(** A handler always ends in a response, so it runs to a response and the
    calls it made, in order. *)
Definition run (h : Handler Empty_set) : Response * list Call :=
  match h [] with
  | (Responded r, log) => (r, log)
  | (Next impossible, _) => match impossible with end
  end.

(** ** Library functions on strings *)

(** [strings.Contains(s, substr)]. *)
Fixpoint Contains (s substr : string) : bool :=
  String.prefix substr s ||
  match s with
  | EmptyString => false
  | String _ s' => Contains s' substr
  end.

(** [strings.Split(s, sep)] for a separator of one byte: the pieces of [s]
    between the occurrences of [sep], one more than there are occurrences. *)
Fixpoint Split (s : string) (sep : ascii) : list string :=
  match s with
  | EmptyString => [EmptyString]
  | String c s' =>
      if Ascii.eqb c sep then EmptyString :: Split s' sep
      else match Split s' sep with
           | [] => [String c EmptyString]
           | piece :: pieces => String c piece :: pieces
           end
  end.

(** The pager behind [ListObjectsV2Pages]: [fn] sees each page with the
    state of its closure and says whether to go on. *)
Fixpoint EachPage {S : Type}
    (fn : S -> ListObjectsV2Output -> bool -> S * bool)
    (s : S) (pages : list ListObjectsV2Output) : S :=
  match pages with
  | [] => s
  | page :: rest =>
      let lastPage := match rest with [] => true | _ => false end in
      let '(s', more) := fn s page lastPage in
      if more then EachPage fn s' rest else s'
  end.

(** ** The handlers *)

Section Handlers.

(** [config.BucketName]. *)
Variable BucketName : string.
(** The global session [sess], built in [init] from the configuration. *)
Variable sess : Session.
(** The session [session.NewSession()] gives without a configuration,
    as [listKeys] asks for it. *)
Variable NewSession : Session.
(** [json.Unmarshal(body, &data)]. *)
Variable json_Unmarshal : string -> JSON * option error.
(** The order in which [for dir := range dirMap] visits the keys: Go
    leaves it open, it is some enumeration of the keys. *)
Variable range_keys : gmap string bool -> list string.

Local Open Scope handler_scope.

(** *** [listFiles] *)

(** The body of [for _, item := range resp.Contents]. *)
Fixpoint listFiles_loop (protocol network : string)
    (items : list Object) (files : list File) : Handler (list File) :=
  match items with
  | [] => ret files
  | item :: rest =>
      if Contains (Key item) protocol && Contains (Key item) network then
        let req := {| goi_Bucket := BucketName; goi_Key := Key item |} in
        let* (urlStr, err) := call (CallPresign req (15 * time.Minute))
                               (Presign sess req (15 * time.Minute)) in
        match err with
        | Some e => JSON_return http.StatusInternalServerError (H_error (Error_ e))
        | None =>
            let file := {| last_modified := LastModified item;
                           size := Size item;
                           filename := Key item;
                           url := urlStr |} in
            listFiles_loop protocol network rest (files ++ [file])
        end
      else listFiles_loop protocol network rest files
  end.

Definition listFiles (protocol network : string) : Handler Empty_set :=
  let req := {| Bucket := BucketName;
                Prefix := Some (protocol +:+ "/" +:+ network +:+ "/") |} in
  let* (resp, err) := call (CallListObjectsV2 req) (ListObjectsV2 sess req) in
  match err with
  | Some e => JSON_return http.StatusInternalServerError (H_error (Error_ e))
  | None =>
      let* files := listFiles_loop protocol network (Contents resp) [] in
      JSON_return http.StatusOK (files_body files)
  end.

(** *** [listKeys] *)

(** The body of the loop that fills [dirMap]. *)
Definition listKeys_visit (dirMap : gmap string bool) (item : Object)
    : gmap string bool :=
  let key := Key item in
  let splitKey := Split key "/" in
  if (2 <=? length splitKey)%nat then
    let dir := nth 0 splitKey "" +:+ "/" +:+ nth 1 splitKey "" in
    <[ dir := true ]> dirMap
  else dirMap.

(** The response is also printed on standard output, which is not part
    of the answer and is left out. *)
Definition listKeys : Handler Empty_set :=
  let req := {| Bucket := BucketName; Prefix := None |} in
  let* (resp, _) := call (CallListObjectsV2 req) (ListObjectsV2 NewSession req) in
  let dirMap := fold_left listKeys_visit (Contents resp) ∅ in
  let dirs := range_keys dirMap in
  JSON_return http.StatusOK (H_dirs dirs).

(** *** [latestSnapshot] *)

(** The body of [for _, item := range page.Contents] in the callback;
    [latestObject] is the variable the closure captures. *)
Definition latestSnapshot_visit (prefix : string)
    (latestObject : option Object) (item : Object) : option Object :=
  if negb (Key item =? prefix +:+ "snapshot-latest.json")%string
     && match latestObject with
        | None => true
        | Some latest => (Key latest <? Key item)%string
        end
  then Some item
  else latestObject.

Definition latestSnapshot_page (prefix : string)
    (latestObject : option Object) (page : ListObjectsV2Output)
    (lastPage : bool) : option Object * bool :=
  (fold_left (latestSnapshot_visit prefix) (Contents page) latestObject, true).

Definition latestSnapshot (protocol network : string) : Handler Empty_set :=
  let prefix := protocol +:+ "/" +:+ network +:+ "/" in
  let input := {| Bucket := BucketName; Prefix := Some prefix |} in
  let* (pages, err) := call (CallListObjectsV2Pages input)
                        (ListObjectsV2Pages_feed sess input) in
  let latestObject := EachPage (latestSnapshot_page prefix) None pages in
  match err with
  | Some e => JSON_return http.StatusInternalServerError (H_error (Error_ e))
  | None =>
      match latestObject with
      | None => JSON_return http.StatusNotFound (H_message "No snapshots found")
      | Some latest =>
          let req := {| goi_Bucket := BucketName; goi_Key := Key latest |} in
          let* (urlStr, err) := call (CallPresign req (15 * time.Minute))
                                 (Presign sess req (15 * time.Minute)) in
          match err with
          | Some e => JSON_return http.StatusInternalServerError (H_error (Error_ e))
          | None =>
              JSON_return http.StatusOK
                (H_latest urlStr (Size latest) (LastModified latest))
          end
      end
  end.

(** *** [snapshotInfo] *)

Definition snapshotInfo (protocol network : string) : Handler Empty_set :=
  let input := {| goi_Bucket := BucketName;
                  goi_Key := protocol +:+ "/" +:+ network +:+ "/snapshot-latest.json" |} in
  let* (result, err) := call (CallGetObject input) (GetObject sess input) in
  match err with
  | Some e =>
      match e with
      | awserr_Error code _ =>
          if (code =? ErrCodeNoSuchKey)%string
          then JSON_return http.StatusNotFound (H_message "Snapshot not found")
          else JSON_return http.StatusInternalServerError (H_error (Error_ e))
      | other_error _ =>
          JSON_return http.StatusInternalServerError (H_error (Error_ e))
      end
  | None =>
      let '(body, err) := ReadAll result in
      match err with
      | Some e => JSON_return http.StatusInternalServerError (H_error (Error_ e))
      | None =>
          let '(data, err) := json_Unmarshal body in
          match err with
          | Some e => JSON_return http.StatusInternalServerError (H_error (Error_ e))
          | None => JSON_return http.StatusOK (data_body data)
          end
      end
  end.

End Handlers.

(** ** Start-up: [loadConfig] and [init] *)

Record Config : Type := {
  FilePath : string;
  cfg_BucketName : string;
  AccessKey : string;
  SecretKey : string;
  Endpoint : string;
  Region : string
}.

(** The [aws.Config] that [init] hands to [session.NewSession]. *)
Record aws_Config : Type := {
  aws_Region : string;
  aws_Credentials : string * string * string;
  aws_Endpoint : string;
  aws_S3ForcePathStyle : bool
}.

(** What the process asks of its surroundings while it starts. *)
Record System : Type := {
  filepath_Abs : string -> string * option error;
  os_Open : string -> string * option error;
  Decode : string -> Config * option error;
  session_NewSession : aws_Config -> Session * option error
}.

Inductive SysCall : Type :=
| SysAbs (path : string)
| SysOpen (path : string)
| SysDecode (content : string)
| SysClose (path : string)
| SysNewSession (cfg : aws_Config).

(** [loadConfig]: the configuration or the error (the function returns
    exactly one of them), and the calls made.  The deferred [Close] runs
    when the function returns after a successful [Open]. *)
Definition loadConfig (sys : System) (filePath : string)
    : (Config + error) * list SysCall :=
  let '(absPath, err) := filepath_Abs sys filePath in
  match err with
  | Some e => (inr e, [SysAbs filePath])
  | None =>
      let '(configFile, err) := os_Open sys absPath in
      match err with
      | Some e => (inr e, [SysAbs filePath; SysOpen absPath])
      | None =>
          let '(config, err) := Decode sys configFile in
          match err with
          | Some e =>
              (inr e,
               [SysAbs filePath; SysOpen absPath; SysDecode configFile;
                SysClose absPath])
          | None =>
              (inl config,
               [SysAbs filePath; SysOpen absPath; SysDecode configFile;
                SysClose absPath])
          end
      end
  end.

(** How [init] ends: [log.Fatalf] stops the process with a message, or
    the globals [config] and [sess] are set. *)
Inductive Startup : Type :=
| Fatal (message : string)
| Ready (config : Config) (sess : Session).

(** The [aws.Config] built from the loaded configuration. *)
Definition session_config (config : Config) : aws_Config :=
  {| aws_Region := Region config;
     aws_Credentials := (AccessKey config, SecretKey config, "");
     aws_Endpoint := Endpoint config;
     aws_S3ForcePathStyle := true |}.

(** [init], with the value of the flag [-config] after [flag.Parse]. *)
Definition init (sys : System) (configFilePath : string)
    : Startup * list SysCall :=
  if negb (configFilePath =? "")%string then
    let '(loaded, calls) := loadConfig sys configFilePath in
    match loaded with
    | inr e =>
        (Fatal ("Error loading configuration from file: " +:+ Error_ e), calls)
    | inl config =>
        let '(sess, err) := session_NewSession sys (session_config config) in
        match err with
        | Some e =>
            (Fatal ("Error creating session: " +:+ Error_ e),
             calls ++ [SysNewSession (session_config config)])
        | None =>
            (Ready config sess, calls ++ [SysNewSession (session_config config)])
        end
    end
  else (Fatal "No configuration file provided", []).

(** ** Test stores *)

Module Fixtures.

Definition obj (key : string) (size : Z) (modified : Z) : Object :=
  {| Key := key; Size := size; LastModified := Some modified |}.

Definition sign (input : GetObjectInput) (expire : time.Duration)
    : string * option error :=
  ("https://store/" +:+ goi_Bucket input +:+ "/" +:+ goi_Key input, None).

(** Keeps the entries under the prefix of the request. *)
Definition under (input : ListObjectsV2Input) (objects : list Object)
    : list Object :=
  match Prefix input with
  | None => objects
  | Some prefix => filter (fun o => String.prefix prefix (Key o)) objects
  end.

Definition no_object : GetObjectOutput * option error :=
  ({| ReadAll := ("", None) |},
   Some (awserr_Error "NoSuchKey" "NoSuchKey: The specified key does not exist."))%string.

(** A store that answers every listing with the given pages. *)
Definition store (pages : list (list Object)) : Session :=
  {| ListObjectsV2 := fun input =>
       ({| Contents := under input (hd [] pages) |}, None);
     ListObjectsV2Pages_feed := fun input =>
       (map (fun page => {| Contents := under input page |}) pages, None);
     GetObject := fun _ => no_object;
     Presign := sign |}.

Definition btc_pages : list (list Object) :=
  [ [ obj "btc/mainnet/2024-01-01T00-00-00.tar.gz" 10 300 ];
    [ obj "btc/mainnet/2024-02-01T00-00-00.tar.gz" 20 100;
      obj "btc/mainnet/snapshot-latest.json" 1 400 ];
    [ obj "btc/mainnet/2023-12-01T00-00-00.tar.gz" 5 500;
      obj "eth/testnet/snapshot-latest.json" 1 50;
      obj "README" 2 60 ] ]%string.

Definition btc : Session := store btc_pages.

(** A store that lists the given objects whatever the prefix asked
    for, and refuses to sign the key [refused]. *)
Definition verbatim (objects : list Object) (refused : string) : Session :=
  {| ListObjectsV2 := fun _ => ({| Contents := objects |}, None);
     ListObjectsV2Pages_feed := fun _ => ([{| Contents := objects |}], None);
     GetObject := fun _ => no_object;
     Presign := fun input expire =>
       if (goi_Key input =? refused)%string
       then (EmptyString, Some (other_error "presign: refused"))
       else sign input expire |}.

Definition january : Object := obj "btc/mainnet/2024-01-01T00-00-00.tar.gz" 10 300.
Definition february : Object := obj "btc/mainnet/2024-02-01T00-00-00.tar.gz" 20 100.
Definition readme : Object := obj "README" 2 60.

Definition mixed_listing : list Object := [january; readme; february].

Definition connection_refused : error :=
  awserr_Error "RequestError"
    "RequestError: send request failed caused by: dial tcp 127.0.0.1:9000: connect: connection refused".

(** A store that cannot be reached: every call fails. *)
Definition unreachable : Session :=
  {| ListObjectsV2 := fun _ => ({| Contents := [] |}, Some connection_refused);
     ListObjectsV2Pages_feed := fun _ => ([], Some connection_refused);
     GetObject := fun _ =>
       ({| ReadAll := (EmptyString, None) |}, Some connection_refused);
     Presign := fun _ _ => (EmptyString, Some connection_refused) |}.

(** A store that answers [GetObject] with the given bytes. *)
Definition serving (content : string) : Session :=
  {| ListObjectsV2 := fun _ => ({| Contents := [] |}, None);
     ListObjectsV2Pages_feed := fun _ => ([], None);
     GetObject := fun _ => ({| ReadAll := (content, None) |}, None);
     Presign := sign |}.

(** A decoder for the three JSON literals; it reports what
    [encoding/json] reports on an input that ends too early. *)
Definition literal_decoder (content : string) : JSON * option error :=
  if (content =? "null")%string then (JNull, None)
  else if (content =? "true")%string then (JBool true, None)
  else if (content =? "false")%string then (JBool false, None)
  else (JNull, Some (other_error "unexpected end of JSON input")).

Definition december : Object := obj "btc/mainnet/2023-12-01T00-00-00.tar.gz" 5 500.
Definition metadata : Object := obj "btc/mainnet/snapshot-latest.json" 1 400.

(** The objects of [btc_pages] under [btc/mainnet/], in another order and
    with a repetition. *)
Definition shuffled_listing : list Object :=
  [metadata; february; december; january; february].

(** A machine on which [config.json] holds [demo_config]. *)
Definition demo_config : Config :=
  {| FilePath := "/data";
     cfg_BucketName := "snapshots";
     AccessKey := "access";
     SecretKey := "secret";
     Endpoint := "http://127.0.0.1:9000";
     Region := "us-east-1" |}.

Definition demo_system : System :=
  {| filepath_Abs := fun path => ("/app/" +:+ path, None);
     os_Open := fun path =>
       if (path =? "/app/config.json")%string
       then ("<config.json>", None)
       else (EmptyString, Some (other_error "open: no such file or directory"));
     Decode := fun content =>
       if (content =? "<config.json>")%string
       then (demo_config, None)
       else (demo_config, Some (other_error "unexpected end of JSON input"));
     session_NewSession := fun _ => (btc, None) |}.

(** One order in which the keys of a map can be visited. *)
Definition keys_in_order (m : gmap string bool) : list string :=
  (map_to_list m).*1.

End Fixtures.

(** ** Vocabulary of the statements *)

(** [fmt.Sprintf("%s/%s/", protocol, network)]. *)
Definition namespace_prefix (protocol network : string) : string :=
  protocol +:+ "/" +:+ network +:+ "/".

(** The key of the metadata document of a namespace. *)
Definition sentinel_key (protocol network : string) : string :=
  namespace_prefix protocol network +:+ "snapshot-latest.json".

(** The objects of all pages, in the order the pager delivers them. *)
Definition enumerated (pages : list ListObjectsV2Output) : list Object :=
  flat_map Contents pages.

(** The request for the pages of a namespace. *)
Definition pages_input (BucketName protocol network : string) : ListObjectsV2Input :=
  {| Bucket := BucketName; Prefix := Some (namespace_prefix protocol network) |}.

Definition presign_input (BucketName : string) (item : Object) : GetObjectInput :=
  {| goi_Bucket := BucketName; goi_Key := Key item |}.

(** The two substring tests of [listFiles] on one listed object. *)
Definition passes_filter (protocol network : string) (item : Object) : bool :=
  Contains (Key item) protocol && Contains (Key item) network.

(** The request for the first page of a namespace. *)
Definition list_input (BucketName protocol network : string) : ListObjectsV2Input :=
  {| Bucket := BucketName; Prefix := Some (namespace_prefix protocol network) |}.

(** The array element [listFiles] builds for an object whose link the
    store has issued. *)
Definition link_of (BucketName : string) (sess : Session) (item : Object) : File :=
  {| last_modified := LastModified item;
     size := Size item;
     filename := Key item;
     url := fst (Presign sess (presign_input BucketName item) (15 * time.Minute)) |}.

Definition presign_call (BucketName : string) (item : Object) : Call :=
  CallPresign (presign_input BucketName item) (15 * time.Minute).

Definition presign_fails (BucketName : string) (sess : Session) (item : Object)
    : option error :=
  snd (Presign sess (presign_input BucketName item) (15 * time.Minute)).

(** The calls that ask the store for a link. *)
Definition is_presign (c : Call) : bool :=
  match c with
  | CallPresign _ _ => true
  | _ => false
  end.

(** The request of [listKeys]: the whole bucket. *)
Definition bucket_input (BucketName : string) : ListObjectsV2Input :=
  {| Bucket := BucketName; Prefix := None |}.

(** The request of [snapshotInfo]. *)
Definition info_input (BucketName protocol network : string) : GetObjectInput :=
  {| goi_Bucket := BucketName;
     goi_Key := protocol +:+ "/" +:+ network +:+ "/snapshot-latest.json" |}.

(** What tells two responses apart without reading their text: the
    status and, for a [gin.H] that carries one text, the member it is
    under. *)
Definition body_member (b : Body) : option string :=
  match b with
  | H_error _ => Some "error"
  | H_message _ => Some "message"
  | _ => None
  end%string.

Definition response_kind (r : Response) : Z * option string :=
  (status r, body_member (body r)).

(** The errors that carry the code [NoSuchKey]. *)
Definition is_no_such_key (e : error) : bool :=
  match e with
  | awserr_Error code _ => (code =? ErrCodeNoSuchKey)%string
  | other_error _ => false
  end.

(** * Properties *)

(** ** Byte-wise order on strings *)

Section StringOrder.

Local Open Scope string_scope.

(** The comparison reads the two strings byte by byte, as unsigned
    numbers, and a proper prefix comes first: the order of Go's [<] and
    [>] on strings. *)
Lemma string_compare_bytes (a b : ascii) (s t : string) :
  (String a s ?= String b t)
  = match N.compare (N_of_ascii a) (N_of_ascii b) with
    | Eq => s ?= t
    | Lt => Lt
    | Gt => Gt
    end
  /\ ("" ?= String b t) = Lt /\ (String a s ?= "") = Gt /\ ("" ?= "") = Eq.
Proof. by repeat split. Qed.

(** The two equations of [+:+]. *)
Lemma string_append_empty (s : string) : "" +:+ s = s.
Proof. reflexivity. Qed.

Lemma string_append_cons (c : ascii) (s1 s2 : string) :
  String c s1 +:+ s2 = String c (s1 +:+ s2).
Proof. reflexivity. Qed.

Lemma ascii_compare_refl (a : ascii) : Ascii.compare a a = Eq.
Proof. unfold Ascii.compare. apply N.compare_refl. Qed.

Lemma string_compare_refl (s : string) : (s ?= s) = Eq.
Proof.
  induction s as [|a s IH]; simpl; [reflexivity|].
  by rewrite ascii_compare_refl.
Qed.

Lemma ascii_compare_lt_trans (a b c : ascii) :
  Ascii.compare a b = Lt -> Ascii.compare b c = Lt -> Ascii.compare a c = Lt.
Proof.
  unfold Ascii.compare. rewrite !N.compare_lt_iff. lia.
Qed.

Lemma string_compare_lt_trans (s1 s2 s3 : string) :
  (s1 ?= s2) = Lt -> (s2 ?= s3) = Lt -> (s1 ?= s3) = Lt.
Proof.
  revert s2 s3.
  induction s1 as [|a s1 IH]; intros [|b s2] [|c s3]; simpl;
    try discriminate; try reflexivity.
  destruct (Ascii.compare a b) eqn:Hab; try discriminate;
    destruct (Ascii.compare b c) eqn:Hbc; try discriminate; intros H12 H23.
  - apply Ascii.compare_eq_iff in Hab, Hbc. subst.
    rewrite ascii_compare_refl. eauto.
  - apply Ascii.compare_eq_iff in Hab. subst. by rewrite Hbc.
  - apply Ascii.compare_eq_iff in Hbc. subst. by rewrite Hab.
  - by rewrite (ascii_compare_lt_trans a b c).
Qed.

Lemma string_leb_refl (s : string) : (s <=? s) = true.
Proof. unfold String.leb. by rewrite string_compare_refl. Qed.

Lemma string_ltb_leb (s1 s2 : string) : (s1 <? s2) = true -> (s1 <=? s2) = true.
Proof.
  unfold String.ltb, String.leb. by destruct (s1 ?= s2).
Qed.

(** [b > a] is false exactly when [b <= a]. *)
Lemma string_ltb_false (s1 s2 : string) : (s1 <? s2) = false -> (s2 <=? s1) = true.
Proof.
  unfold String.ltb, String.leb. rewrite (String.compare_antisym s1 s2).
  by destruct (s2 ?= s1).
Qed.

Lemma string_leb_ltb_trans (s1 s2 s3 : string) :
  (s1 <=? s2) = true -> (s2 <? s3) = true -> (s1 <=? s3) = true.
Proof.
  unfold String.leb, String.ltb.
  destruct (s1 ?= s2) eqn:H12; try discriminate;
    destruct (s2 ?= s3) eqn:H23; try discriminate; intros _ _.
  - apply String.compare_eq_iff in H12. subst. by rewrite H23.
  - by rewrite (string_compare_lt_trans s1 s2 s3).
Qed.

Lemma string_leb_trans (s1 s2 s3 : string) :
  (s1 <=? s2) = true -> (s2 <=? s3) = true -> (s1 <=? s3) = true.
Proof.
  intros H12 H23.
  destruct (s2 <? s3) eqn:Hlt.
  - by apply string_leb_ltb_trans with s2.
  - apply string_ltb_false in Hlt.
    by rewrite (String.leb_antisym s2 s3 H23 Hlt) in H12.
Qed.

End StringOrder.

(** ** The selection made by [latestSnapshot] *)

Section Selection.

Variable prefix : string.
Let sentinel : string := prefix +:+ "snapshot-latest.json".
Let visit := latestSnapshot_visit prefix.

Lemma visit_cases (acc : option Object) (x : Object) :
  (Key x = sentinel /\ visit acc x = acc)
  \/ (Key x <> sentinel /\ acc = None /\ visit acc x = Some x)
  \/ (exists a, Key x <> sentinel /\ acc = Some a
                /\ (Key a <? Key x)%string = true /\ visit acc x = Some x)
  \/ (exists a, Key x <> sentinel /\ acc = Some a
                /\ (Key x <=? Key a)%string = true /\ visit acc x = acc).
Proof.
  unfold visit, latestSnapshot_visit. fold sentinel.
  destruct (String.eqb_spec (Key x) sentinel) as [Heq|Hne]; simpl.
  - by left.
  - right. destruct acc as [a|]; [|by left].
    right. destruct (Key a <? Key x)%string eqn:Hlt.
    + left. by exists a.
    + right. exists a. repeat split; try done. by apply string_ltb_false.
Qed.

(** The pager with the callback of [latestSnapshot], which never asks
    to stop, is one pass over the objects of all pages. *)
Lemma EachPage_latestSnapshot (pages : list ListObjectsV2Output)
    (acc : option Object) :
  EachPage (latestSnapshot_page prefix) acc pages
  = fold_left visit (enumerated pages) acc.
Proof.
  revert acc. induction pages as [|page rest IH]; intros acc; simpl.
  - reflexivity.
  - by rewrite IH, fold_left_app.
Qed.

Lemma select_none (items : list Object) (acc : option Object) :
  fold_left visit items acc = None <->
  acc = None /\ forall x, In x items -> Key x = sentinel.
Proof.
  revert acc. induction items as [|x items IH]; intros acc; simpl.
  - split; [intros ->; split; [done|tauto] | by intros [-> _]].
  - rewrite IH.
    destruct (visit_cases acc x)
      as [[Hx ->]|[(Hx & -> & ->)|[(a & Hx & -> & _ & ->)|(a & Hx & -> & _ & ->)]]].
    + split; intros [Hacc Hall]; split; try done.
      * intros y [<-|Hy]; auto.
      * intros y Hy. apply Hall. by right.
    + split; [by intros [? _]|]. intros [_ Hall]. destruct Hx. apply Hall. by left.
    + split; by intros [? _].
    + split; by intros [? _].
Qed.

Lemma select_some (items : list Object) (acc : option Object) (o : Object) :
  fold_left visit items acc = Some o ->
  (acc = Some o \/ (In o items /\ Key o <> sentinel))
  /\ (forall a, acc = Some a -> (Key a <=? Key o)%string = true)
  /\ (forall x, In x items -> Key x <> sentinel -> (Key x <=? Key o)%string = true).
Proof.
  revert acc. induction items as [|x items IH]; intros acc; simpl.
  - intros ->. repeat split.
    + by left.
    + intros a [= <-]. apply string_leb_refl.
    + tauto.
  - intros Hsel. destruct (IH _ Hsel) as (Hwhere & Hacc & Hitems). clear IH Hsel.
    destruct (visit_cases acc x)
      as [[Hx Hv]|[(Hx & -> & Hv)|[(a & Hx & -> & Hlt & Hv)|(a & Hx & -> & Hle & Hv)]]];
      rewrite Hv in Hwhere, Hacc; clear Hv.
    + repeat split.
      * destruct Hwhere as [?|[? ?]]; [by left|right; split; [by right|done]].
      * done.
      * intros y [<-|Hy] Hne; [done|auto].
    + repeat split.
      * right. destruct Hwhere as [[= <-]|[? ?]]; split; try done; [by left|by right].
      * done.
      * intros y [<-|Hy] Hne; auto.
    + repeat split.
      * right. destruct Hwhere as [[= <-]|[? ?]]; split; try done; [by left|by right].
      * intros ? [= <-]. apply string_leb_trans with (Key x); auto.
        by apply string_ltb_leb.
      * intros y [<-|Hy] Hne; auto.
    + repeat split.
      * destruct Hwhere as [?|[? ?]]; [by left|right; split; [by right|done]].
      * done.
      * intros y [<-|Hy] Hne; auto.
        apply string_leb_trans with (Key a); auto.
Qed.

(** The choice is made on the keys alone. *)
Lemma select_by_keys (items items' : list Object) (acc acc' : option Object) :
  map Key items = map Key items' ->
  option_map Key acc = option_map Key acc' ->
  option_map Key (fold_left visit items acc)
  = option_map Key (fold_left visit items' acc').
Proof.
  revert items' acc acc'.
  induction items as [|x items IH]; intros [|x' items'] acc acc'; simpl;
    try discriminate; [done|].
  intros [= Hx Hrest] Hacc. apply IH; [done|].
  unfold visit, latestSnapshot_visit. rewrite <- Hx.
  destruct acc as [a|], acc' as [a'|]; simpl in Hacc; try discriminate.
  - injection Hacc as Ha. rewrite Ha.
    by destruct (negb _ && (Key a' <? Key x)%string); simpl; rewrite ?Hx, ?Ha.
  - by destruct (negb _ && true); simpl; rewrite ?Hx.
Qed.

End Selection.

(** ** [latestSnapshot] *)

Section LatestSnapshot.

Variable BucketName : string.
Variables protocol network : string.

Let prefix : string := namespace_prefix protocol network.
Let input : ListObjectsV2Input := pages_input BucketName protocol network.

(** What [latestSnapshot] answers and which calls it makes, by the
    outcome of the listing, of the selection and of the presign request. *)
Lemma latestSnapshot_run (sess : Session) :
  run (latestSnapshot BucketName sess protocol network) =
  let '(pages, err) := ListObjectsV2Pages_feed sess input in
  match err with
  | Some e =>
      ({| status := 500; body := H_error (Error_ e) |},
       [CallListObjectsV2Pages input])
  | None =>
      match fold_left (latestSnapshot_visit prefix) (enumerated pages) None with
      | None =>
          ({| status := 404; body := H_message "No snapshots found" |},
           [CallListObjectsV2Pages input])
      | Some latest =>
          let '(urlStr, err) :=
            Presign sess (presign_input BucketName latest) (15 * time.Minute) in
          (match err with
           | Some e => {| status := 500; body := H_error (Error_ e) |}
           | None => {| status := 200;
                        body := H_latest urlStr (Size latest) (LastModified latest) |}
           end,
           [CallListObjectsV2Pages input;
            CallPresign (presign_input BucketName latest) (15 * time.Minute)])
      end
  end.
Proof.
  unfold run, latestSnapshot, bind, call, input, pages_input, presign_input,
    prefix, namespace_prefix.
  destruct (ListObjectsV2Pages_feed sess _) as [pages [e|]]; [done|].
  rewrite EachPage_latestSnapshot.
  destruct (fold_left _ _ _) as [latest|]; [|done].
  by destruct (Presign sess _ _) as [urlStr [e|]].
Qed.

End LatestSnapshot.

(** C1: when the paged listing of [protocol/network/] succeeds and holds
    an object other than the sentinel, [latestSnapshot] asks for the link
    of an enumerated non-sentinel object whose key is byte-wise greater
    than or equal to the key of every non-sentinel object of every page,
    and answers 200 with that object's link, size and time; any listing
    with the same keys, whatever its sizes and timestamps, leads to the
    same calls, so the timestamps play no role. *)
Theorem latestSnapshot_selects_greatest_key
    (BucketName protocol network : string) (sess : Session)
    (pages : list ListObjectsV2Output) (candidate : Object) :
  ListObjectsV2Pages_feed sess (pages_input BucketName protocol network)
    = (pages, None) ->
  In candidate (enumerated pages) ->
  Key candidate <> sentinel_key protocol network ->
  exists latest : Object,
    In latest (enumerated pages)
    /\ Key latest <> sentinel_key protocol network
    /\ (forall x : Object,
          In x (enumerated pages) -> Key x <> sentinel_key protocol network ->
          (Key x <=? Key latest)%string = true)
    /\ snd (run (latestSnapshot BucketName sess protocol network))
       = [CallListObjectsV2Pages (pages_input BucketName protocol network);
          CallPresign (presign_input BucketName latest) (15 * time.Minute)]
    /\ (forall urlStr : string,
          Presign sess (presign_input BucketName latest) (15 * time.Minute)
            = (urlStr, None) ->
          fst (run (latestSnapshot BucketName sess protocol network))
          = {| status := 200;
               body := H_latest urlStr (Size latest) (LastModified latest) |})
    /\ (forall (sess' : Session) (pages' : list ListObjectsV2Output),
          ListObjectsV2Pages_feed sess' (pages_input BucketName protocol network)
            = (pages', None) ->
          map Key (enumerated pages') = map Key (enumerated pages) ->
          snd (run (latestSnapshot BucketName sess' protocol network))
          = snd (run (latestSnapshot BucketName sess protocol network))).
Proof.
  intros Hfeed Hin Hcand.
  destruct (fold_left (latestSnapshot_visit (namespace_prefix protocol network))
              (enumerated pages) None) as [latest|] eqn:Hsel.
  - exists latest.
    destruct (select_some _ _ _ _ Hsel) as ([Habs|[Hlisted Hne]] & _ & Hmax);
      [discriminate|].
    assert (Hcalls :
      snd (run (latestSnapshot BucketName sess protocol network))
      = [CallListObjectsV2Pages (pages_input BucketName protocol network);
         CallPresign (presign_input BucketName latest) (15 * time.Minute)]).
    { rewrite latestSnapshot_run, Hfeed, Hsel.
      by destruct (Presign sess _ _) as [urlStr err]. }
    repeat split; try done.
    + intros urlStr Hurl. by rewrite latestSnapshot_run, Hfeed, Hsel, Hurl.
    + intros sess' pages' Hfeed' Hkeys. rewrite Hcalls.
      rewrite latestSnapshot_run, Hfeed'.
      pose proof (select_by_keys (namespace_prefix protocol network)
                    _ _ None None Hkeys eq_refl) as Hsame.
      rewrite Hsel in Hsame.
      destruct (fold_left _ (enumerated pages') None) as [latest'|];
        [|discriminate].
      injection Hsame as Hkey.
      unfold presign_input. rewrite Hkey.
      by destruct (Presign sess' _ _) as [urlStr err].
  - apply select_none in Hsel. destruct Hsel as [_ Hall].
    destruct Hcand. by apply Hall.
Qed.

(** C2: [latestSnapshot] never asks for a link of the sentinel key
    [protocol/network/snapshot-latest.json], its pass over the pages never
    ends on an object with that key, and a 200 answer always describes an
    enumerated object with another key. *)
Theorem latestSnapshot_excludes_sentinel
    (BucketName protocol network : string) (sess : Session) :
  (forall (req : GetObjectInput) (expire : time.Duration),
      In (CallPresign req expire)
         (snd (run (latestSnapshot BucketName sess protocol network))) ->
      goi_Key req <> sentinel_key protocol network)
  /\ (forall (pages : list ListObjectsV2Output) (latest : Object),
        EachPage (latestSnapshot_page (namespace_prefix protocol network))
                 None pages = Some latest ->
        Key latest <> sentinel_key protocol network)
  /\ (forall (urlStr : string) (sz : Z) (modified : option Z),
        fst (run (latestSnapshot BucketName sess protocol network))
        = {| status := 200; body := H_latest urlStr sz modified |} ->
        exists latest : Object,
          In latest (enumerated (fst (ListObjectsV2Pages_feed sess
                       (pages_input BucketName protocol network))))
          /\ Key latest <> sentinel_key protocol network
          /\ Presign sess (presign_input BucketName latest) (15 * time.Minute)
             = (urlStr, None)
          /\ sz = Size latest /\ modified = LastModified latest).
Proof.
  assert (Hsentinel : forall items latest,
    fold_left (latestSnapshot_visit (namespace_prefix protocol network))
      items None = Some latest ->
    In latest items /\ Key latest <> sentinel_key protocol network).
  { intros items latest Hsel.
    by destruct (select_some _ _ _ _ Hsel) as ([Habs|?] & _ & _). }
  split; [|split].
  - intros req expire. rewrite latestSnapshot_run.
    destruct (ListObjectsV2Pages_feed sess _) as [pages [e|]].
    { simpl. by intros [?|[]]. }
    destruct (fold_left _ _ _) as [latest|] eqn:Hsel.
    + destruct (Presign sess _ _) as [urlStr err]. simpl.
      intros [?|[[= <- _]|[]]]; [done|]. by apply (Hsentinel _ _ Hsel).
    + simpl. by intros [?|[]].
  - intros pages latest. rewrite EachPage_latestSnapshot.
    intros Hsel. by apply (Hsentinel _ _ Hsel).
  - intros urlStr sz modified. rewrite latestSnapshot_run.
    destruct (ListObjectsV2Pages_feed sess _) as [pages [e|]]; [done|].
    destruct (fold_left _ _ _) as [latest|] eqn:Hsel; [|done].
    destruct (Presign sess _ _) as [urlStr' [e|]] eqn:Hurl; [done|].
    simpl. intros [= -> <- <-]. exists latest.
    destruct (Hsentinel _ _ Hsel). by repeat split.
Qed.

(** C3: when the paged listing succeeds and every object it holds has
    the sentinel key, [latestSnapshot] answers 404 "No snapshots found"
    and asks for no link; a failed listing and a failed presign request
    are answered 500 with the error's text, which is another response. *)
Theorem latestSnapshot_not_found
    (BucketName protocol network : string) :
  let not_found := {| status := 404; body := H_message "No snapshots found" |} in
  (forall (sess : Session) (pages : list ListObjectsV2Output),
      ListObjectsV2Pages_feed sess (pages_input BucketName protocol network)
        = (pages, None) ->
      (forall x : Object,
          In x (enumerated pages) -> Key x = sentinel_key protocol network) ->
      run (latestSnapshot BucketName sess protocol network)
      = (not_found,
         [CallListObjectsV2Pages (pages_input BucketName protocol network)]))
  /\ (forall (sess : Session) (pages : list ListObjectsV2Output) (e : error),
        ListObjectsV2Pages_feed sess (pages_input BucketName protocol network)
          = (pages, Some e) ->
        fst (run (latestSnapshot BucketName sess protocol network))
        = {| status := 500; body := H_error (Error_ e) |}
        /\ fst (run (latestSnapshot BucketName sess protocol network))
           <> not_found)
  /\ (forall (sess : Session) (pages : list ListObjectsV2Output)
             (latest : Object) (urlStr : string) (e : error),
        ListObjectsV2Pages_feed sess (pages_input BucketName protocol network)
          = (pages, None) ->
        EachPage (latestSnapshot_page (namespace_prefix protocol network))
                 None pages = Some latest ->
        Presign sess (presign_input BucketName latest) (15 * time.Minute)
          = (urlStr, Some e) ->
        fst (run (latestSnapshot BucketName sess protocol network))
        = {| status := 500; body := H_error (Error_ e) |}
        /\ fst (run (latestSnapshot BucketName sess protocol network))
           <> not_found).
Proof.
  intros not_found. split; [|split].
  - intros sess pages Hfeed Hall.
    rewrite latestSnapshot_run, Hfeed.
    assert (Hsel : fold_left (latestSnapshot_visit (namespace_prefix protocol network))
                     (enumerated pages) None = None)
      by (by apply select_none).
    by rewrite Hsel.
  - intros sess pages e Hfeed. by rewrite latestSnapshot_run, Hfeed.
  - intros sess pages latest urlStr e Hfeed Hsel Hurl.
    rewrite EachPage_latestSnapshot in Hsel.
    by rewrite latestSnapshot_run, Hfeed, Hsel, Hurl.
Qed.

(** ** [listFiles] *)

Section ListFiles.

Variable BucketName : string.
Variable sess : Session.
Variables protocol network : string.

Let matched (items : list Object) : list Object :=
  List.filter (passes_filter protocol network) items.
Let loop := listFiles_loop BucketName sess protocol network.

(** The loop asks for links of the matching objects, in order, up to
    the first failure, and either ends with one link for each of them
    or stops with the answer 500 at the first failure. *)
Lemma listFiles_loop_spec (items : list Object) :
  forall (files : list File) (log : list Call),
  exists signed : list Object,
    signed `prefix_of` matched items
    /\ snd (loop items files log) = log ++ map (presign_call BucketName) signed
    /\ ((signed = matched items
         /\ (forall x, In x signed -> presign_fails BucketName sess x = None)
         /\ fst (loop items files log)
            = Next (files ++ map (link_of BucketName sess) signed))
        \/ (exists (ok : list Object) (bad : Object) (e : error),
              signed = ok ++ [bad]
              /\ (forall x, In x ok -> presign_fails BucketName sess x = None)
              /\ presign_fails BucketName sess bad = Some e
              /\ fst (loop items files log)
                 = Responded {| status := 500; body := H_error (Error_ e) |})).
Proof.
  induction items as [|item rest IH]; intros files log.
  - exists []. split; [done|]. split; [by rewrite app_nil_r|].
    left. repeat split; [by intros x []|]. simpl. by rewrite app_nil_r.
  - unfold loop, matched. simpl. fold (passes_filter protocol network item).
    destruct (passes_filter protocol network item) eqn:Hpass;
      [|apply IH].
    unfold bind, call.
    change {| goi_Bucket := BucketName; goi_Key := Key item |}
      with (presign_input BucketName item).
    destruct (Presign sess (presign_input BucketName item) (15 * time.Minute))
      as [urlStr [e|]] eqn:Hurl.
    + exists [item]. split; [by apply prefix_cons, prefix_nil|].
      split; [done|]. right. exists [], item, e.
      repeat split; [by intros x []|]. unfold presign_fails. by rewrite Hurl.
    + destruct (IH (files ++ [{| last_modified := LastModified item;
                                 size := Size item;
                                 filename := Key item;
                                 url := urlStr |}])
                   (log ++ [CallPresign (presign_input BucketName item)
                                        (15 * time.Minute)]))
        as (signed & Hpre & Hlog & Hend).
      fold loop. exists (item :: signed).
      split; [by apply prefix_cons|].
      split; [by rewrite Hlog, <- app_assoc|].
      assert (Hitem : presign_fails BucketName sess item = None)
        by (unfold presign_fails; by rewrite Hurl).
      destruct Hend as [(Hall & Hok & Hfiles)|(ok & bad & e & Hsigned & Hok & Hbad & Hresp)].
      * left. split; [by rewrite Hall|]. split.
        { intros x [<-|Hx]; auto. }
        rewrite Hfiles, <- app_assoc. simpl. unfold link_of at 2.
        by rewrite Hurl.
      * right. exists (item :: ok), bad, e. split; [by rewrite Hsigned|].
        split; [|done]. intros x [<-|Hx]; auto.
Qed.

(** What [listFiles] answers and which calls it makes, by the outcome
    of the listing and of the loop. *)
Lemma listFiles_run :
  run (listFiles BucketName sess protocol network) =
  let input := list_input BucketName protocol network in
  let '(resp, err) := ListObjectsV2 sess input in
  match err with
  | Some e =>
      ({| status := 500; body := H_error (Error_ e) |},
       [CallListObjectsV2 input])
  | None =>
      match loop (Contents resp) [] [CallListObjectsV2 input] with
      | (Next files, log) => ({| status := 200; body := files_body files |}, log)
      | (Responded r, log) => (r, log)
      end
  end.
Proof.
  unfold run, listFiles, bind, call, list_input, namespace_prefix, loop.
  destruct (ListObjectsV2 sess _) as [resp [e|]]; [done|]. simpl.
  by destruct (listFiles_loop _ _ _ _ _ _ _) as [[files|r] log].
Qed.

(** After a successful listing there are two outcomes: every matching
    object got its link, or the first refusal ended the request. *)
Lemma listFiles_outcome (resp : ListObjectsV2Output) :
  ListObjectsV2 sess (list_input BucketName protocol network) = (resp, None) ->
  ((forall x, In x (matched (Contents resp)) ->
              presign_fails BucketName sess x = None)
   /\ run (listFiles BucketName sess protocol network)
      = ({| status := 200;
            body := files_body
                      (map (link_of BucketName sess) (matched (Contents resp))) |},
         CallListObjectsV2 (list_input BucketName protocol network)
           :: map (presign_call BucketName) (matched (Contents resp))))
  \/ (exists (ok : list Object) (bad : Object) (e : error),
         (ok ++ [bad]) `prefix_of` matched (Contents resp)
         /\ (forall x, In x ok -> presign_fails BucketName sess x = None)
         /\ presign_fails BucketName sess bad = Some e
         /\ run (listFiles BucketName sess protocol network)
            = ({| status := 500; body := H_error (Error_ e) |},
               CallListObjectsV2 (list_input BucketName protocol network)
                 :: map (presign_call BucketName) (ok ++ [bad]))).
Proof.
  intros Hlist. rewrite listFiles_run. cbv zeta. rewrite Hlist.
  destruct (listFiles_loop_spec (Contents resp) []
              [CallListObjectsV2 (list_input BucketName protocol network)])
    as (signed & Hpre & Hlog & Hend).
  destruct (loop (Contents resp) [] _) as [step log]. simpl in Hlog, Hend.
  subst log.
  destruct Hend as [(-> & Hok & ->)|(ok & bad & e & -> & Hok & Hbad & ->)].
  - by left.
  - right. by exists ok, bad, e.
Qed.

Lemma listFiles_all_signed (resp : ListObjectsV2Output) :
  ListObjectsV2 sess (list_input BucketName protocol network) = (resp, None) ->
  (forall x, In x (matched (Contents resp)) ->
             presign_fails BucketName sess x = None) ->
  run (listFiles BucketName sess protocol network)
  = ({| status := 200;
        body := files_body
                  (map (link_of BucketName sess) (matched (Contents resp))) |},
     CallListObjectsV2 (list_input BucketName protocol network)
       :: map (presign_call BucketName) (matched (Contents resp))).
Proof.
  intros Hlist Hall.
  destruct (listFiles_outcome resp Hlist)
    as [[_ Hrun]|(ok & bad & e & [rest Hpre] & _ & Hbad & _)]; [done|].
  rewrite Hall in Hbad; [done|].
  rewrite Hpre. apply in_or_app. left. apply in_or_app. right. by left.
Qed.

Lemma listFiles_answer_200 (resp : ListObjectsV2Output) (files : list File) :
  ListObjectsV2 sess (list_input BucketName protocol network) = (resp, None) ->
  fst (run (listFiles BucketName sess protocol network))
  = {| status := 200; body := files_body files |} ->
  files = map (link_of BucketName sess) (matched (Contents resp)).
Proof.
  intros Hlist.
  destruct (listFiles_outcome resp Hlist)
    as [[_ ->]|(ok & bad & e & _ & _ & _ & ->)]; simpl; congruence.
Qed.

(** The calls of [listFiles]: the listing, then requests for links of
    an initial part of the matching objects. *)
Lemma listFiles_calls (resp : ListObjectsV2Output) (err : option error) :
  ListObjectsV2 sess (list_input BucketName protocol network) = (resp, err) ->
  exists signed : list Object,
    signed `prefix_of` matched (Contents resp)
    /\ snd (run (listFiles BucketName sess protocol network))
       = CallListObjectsV2 (list_input BucketName protocol network)
           :: map (presign_call BucketName) signed.
Proof.
  destruct err as [e|]; intros Hlist.
  - exists []. split; [apply prefix_nil|].
    rewrite listFiles_run. cbv zeta. by rewrite Hlist.
  - destruct (listFiles_outcome resp Hlist)
      as [[_ ->]|(ok & failed & e' & Hpre & _ & _ & ->)]; simpl.
    + by exists (matched (Contents resp)).
    + by exists (ok ++ [failed]).
Qed.

End ListFiles.

Lemma presign_calls_only (BucketName : string) (items : list Object) :
  List.filter is_presign (map (presign_call BucketName) items)
  = map (presign_call BucketName) items.
Proof. induction items as [|x items IH]; simpl; by rewrite ?IH. Qed.

(** X19: over the one response of [ListObjectsV2] it reads,
    [listFiles] is all or nothing: it answers 500 with the error's text,
    without asking for any link, when the listing fails; it answers 200
    with exactly one link per listed object passing the filter, in
    listing order, when every presign request succeeds; it answers 500
    with an error's text and no list of links as soon as one presign
    request fails; and in every case the presign requests it makes are
    for an initial part of the matching listed objects, so never more
    than there are. *)
Theorem listFiles_all_or_nothing
    (BucketName protocol network : string) (sess : Session) :
  let input := list_input BucketName protocol network in
  let matched := fun resp : ListObjectsV2Output =>
    List.filter (passes_filter protocol network) (Contents resp) in
  (forall (resp : ListObjectsV2Output) (e : error),
      ListObjectsV2 sess input = (resp, Some e) ->
      run (listFiles BucketName sess protocol network)
      = ({| status := 500; body := H_error (Error_ e) |},
         [CallListObjectsV2 input]))
  /\ (forall resp : ListObjectsV2Output,
        ListObjectsV2 sess input = (resp, None) ->
        (forall x, In x (matched resp) -> presign_fails BucketName sess x = None) ->
        run (listFiles BucketName sess protocol network)
        = ({| status := 200;
              body := files_body (map (link_of BucketName sess) (matched resp)) |},
           CallListObjectsV2 input
             :: map (presign_call BucketName) (matched resp)))
  /\ (forall (resp : ListObjectsV2Output) (bad : Object) (e : error),
        ListObjectsV2 sess input = (resp, None) ->
        In bad (matched resp) ->
        presign_fails BucketName sess bad = Some e ->
        exists (failed : Object) (e' : error),
          In failed (matched resp)
          /\ presign_fails BucketName sess failed = Some e'
          /\ fst (run (listFiles BucketName sess protocol network))
             = {| status := 500; body := H_error (Error_ e') |})
  /\ (forall (resp : ListObjectsV2Output) (err : option error),
        ListObjectsV2 sess input = (resp, err) ->
        exists signed : list Object,
          signed `prefix_of` matched resp
          /\ snd (run (listFiles BucketName sess protocol network))
             = CallListObjectsV2 input :: map (presign_call BucketName) signed
          /\ (length (List.filter is_presign
                        (snd (run (listFiles BucketName sess protocol network))))
              <= length (matched resp))%nat).
Proof.
  intros input matched. split; [|split; [|split]].
  - intros resp e Hlist. rewrite listFiles_run. cbv zeta.
    fold input. by rewrite Hlist.
  - intros resp Hlist Hall. by apply listFiles_all_signed.
  - intros resp bad e Hlist Hin Hbad.
    destruct (listFiles_outcome BucketName sess protocol network resp Hlist)
      as [[Hall _]|(ok & failed & e' & [rest Hpre] & _ & Hfailed & ->)].
    + rewrite (Hall bad Hin) in Hbad. discriminate.
    + exists failed, e'. repeat split; [|done].
      unfold matched. rewrite Hpre.
      apply in_or_app. left. apply in_or_app. right. by left.
  - intros resp err Hlist.
    destruct (listFiles_calls BucketName sess protocol network resp err Hlist)
      as (signed & Hpre & Hcalls).
    exists signed. split; [done|]. split; [done|].
    rewrite Hcalls. simpl. rewrite presign_calls_only, length_map.
    by apply prefix_length.
Qed.

(** ** The substring tests on a key under the prefix *)

Section PrefixFilter.

Local Open Scope string_scope.

Lemma prefix_append (a r : string) : String.prefix a (a +:+ r) = true.
Proof.
  induction a as [|c a IH]; [by destruct r|].
  rewrite string_append_cons. simpl. by destruct (ascii_dec c c).
Qed.

Lemma prefix_split (a s : string) :
  String.prefix a s = true -> exists r : string, s = a +:+ r.
Proof.
  revert s. induction a as [|c a IH]; intros s.
  - intros _. exists s. reflexivity.
  - destruct s as [|c' s]; simpl; [done|].
    destruct (ascii_dec c c') as [<-|_]; [|done].
    intros Hpre. destruct (IH s Hpre) as [r ->]. by exists r.
Qed.

Lemma Contains_append_l (a r : string) : Contains (a +:+ r) a = true.
Proof.
  assert (Hhead : forall s sub, String.prefix sub s = true -> Contains s sub = true).
  { intros s sub Hpre. destruct s as [|c s].
    - change (Contains "" sub) with (String.prefix sub "" || false).
      by rewrite Hpre.
    - change (Contains (String c s) sub)
        with (String.prefix sub (String c s) || Contains s sub).
      by rewrite Hpre. }
  apply Hhead, prefix_append.
Qed.

Lemma Contains_append_r (a r sub : string) :
  Contains r sub = true -> Contains (a +:+ r) sub = true.
Proof.
  intros Hr. induction a as [|c a IH]; [done|].
  rewrite string_append_cons.
  change (Contains (String c (a +:+ r)) sub)
    with (String.prefix sub (String c (a +:+ r)) || Contains (a +:+ r) sub).
  rewrite IH. apply orb_true_r.
Qed.

Lemma string_append_assoc (a b c : string) : (a +:+ b) +:+ c = a +:+ (b +:+ c).
Proof.
  induction a as [|x a IH]; [done|]. by rewrite !string_append_cons, IH.
Qed.

(** A key that begins with [protocol/network/] passes both substring
    tests: on a listing that holds only keys under the prefix asked for,
    the tests drop nothing. *)
Lemma prefix_passes_filter (protocol network : string) (item : Object) :
  String.prefix (namespace_prefix protocol network) (Key item) = true ->
  passes_filter protocol network item = true.
Proof.
  intros Hpre. apply prefix_split in Hpre. destruct Hpre as [r Hkey].
  unfold passes_filter, namespace_prefix in *. rewrite Hkey.
  rewrite !string_append_assoc. apply andb_true_iff. split.
  - apply Contains_append_l.
  - apply Contains_append_r, Contains_append_r, Contains_append_l.
Qed.

End PrefixFilter.

(** C8: after a successful listing answered 200 by [listFiles], every
    link belongs to a listed object whose key contains both the protocol
    and the network; a listed object whose key lacks one of them has no
    link; the listing was requested with the prefix [protocol/network/],
    and when the store returns only keys with that prefix every link is
    for a key that begins with it. *)
Theorem listFiles_links_pass_filter
    (BucketName protocol network : string) (sess : Session)
    (resp : ListObjectsV2Output) (files : list File) :
  ListObjectsV2 sess (list_input BucketName protocol network) = (resp, None) ->
  fst (run (listFiles BucketName sess protocol network))
    = {| status := 200; body := files_body files |} ->
  (forall f : File,
      In f files ->
      exists item : Object,
        In item (Contents resp)
        /\ f = link_of BucketName sess item
        /\ Contains (filename f) protocol = true
        /\ Contains (filename f) network = true)
  /\ (forall item : Object,
        In item (Contents resp) ->
        Contains (Key item) protocol = false
        \/ Contains (Key item) network = false ->
        forall f : File, In f files -> filename f <> Key item)
  /\ (exists calls : list Call,
        snd (run (listFiles BucketName sess protocol network))
        = CallListObjectsV2
            {| Bucket := BucketName;
               Prefix := Some (protocol +:+ "/" +:+ network +:+ "/") |}
            :: calls)
  /\ ((forall item : Object,
         In item (Contents resp) ->
         String.prefix (namespace_prefix protocol network) (Key item) = true) ->
      forall f : File,
        In f files ->
        String.prefix (namespace_prefix protocol network) (filename f) = true).
Proof.
  intros Hlist H200.
  pose proof (listFiles_answer_200 _ _ _ _ _ _ Hlist H200) as ->.
  assert (Hlinks : forall f : File,
    In f (map (link_of BucketName sess)
            (List.filter (passes_filter protocol network) (Contents resp))) ->
    exists item : Object,
      In item (Contents resp) /\ f = link_of BucketName sess item
      /\ Contains (Key item) protocol = true
      /\ Contains (Key item) network = true).
  { intros f Hf. apply in_map_iff in Hf. destruct Hf as (item & <- & Hitem).
    apply filter_In in Hitem. destruct Hitem as [Hin Hpass].
    apply andb_true_iff in Hpass. exists item. tauto. }
  split; [|split; [|split]].
  - intros f Hf. destruct (Hlinks f Hf) as (item & Hin & -> & Hp & Hn).
    by exists item.
  - intros item Hin Hlacks f Hf Hsame.
    destruct (Hlinks f Hf) as (item' & _ & -> & Hp & Hn). simpl in Hsame.
    rewrite Hsame in Hp, Hn. destruct Hlacks; congruence.
  - destruct (listFiles_calls _ _ _ _ _ _ Hlist) as (signed & _ & ->).
    by eexists.
  - intros Hprefix f Hf.
    destruct (Hlinks f Hf) as (item & Hin & -> & _ & _). by apply Hprefix.
Qed.

(** C10: when the listing succeeds and no listed object passes the
    filter, in particular when the listing is empty, [listFiles] answers
    200 with an empty array and asks for no link. *)
Theorem listFiles_empty_success
    (BucketName protocol network : string) (sess : Session)
    (resp : ListObjectsV2Output) :
  ListObjectsV2 sess (list_input BucketName protocol network) = (resp, None) ->
  (forall item : Object,
      In item (Contents resp) -> passes_filter protocol network item = false) ->
  run (listFiles BucketName sess protocol network)
  = ({| status := 200; body := files_body [] |},
     [CallListObjectsV2 (list_input BucketName protocol network)]).
Proof.
  intros Hlist Hnone.
  assert (Hempty : List.filter (passes_filter protocol network) (Contents resp) = []).
  { induction (Contents resp) as [|item items IH]; simpl; [done|].
    rewrite (Hnone item) by (by left). apply IH.
    intros x Hx. apply Hnone. by right. }
  rewrite (listFiles_all_signed _ _ _ _ _ Hlist); rewrite Hempty; [done|].
  by intros x [].
Qed.

(** C9: every link in a 200 answer of [listFiles] and the link in a 200
    answer of [latestSnapshot] is the one the store issued for that
    object's key at the expiry 900 000 000 000 ns, which is 15 minutes,
    and the request for it is among the calls made; no request for a
    link made by either handler carries another expiry. *)
Theorem presign_expiry_fifteen_minutes
    (BucketName protocol network : string) (sess : Session) :
  (forall (req : GetObjectInput) (expire : time.Duration),
      In (CallPresign req expire)
         (snd (run (listFiles BucketName sess protocol network))
          ++ snd (run (latestSnapshot BucketName sess protocol network))) ->
      expire = 900000000000 /\ expire = 15 * 60 * time.Second)
  /\ (forall (files : list File) (f : File),
        fst (run (listFiles BucketName sess protocol network))
          = {| status := 200; body := files_body files |} ->
        In f files ->
        Presign sess {| goi_Bucket := BucketName; goi_Key := filename f |}
                900000000000
          = (url f, None)
        /\ In (CallPresign {| goi_Bucket := BucketName; goi_Key := filename f |}
                           900000000000)
              (snd (run (listFiles BucketName sess protocol network))))
  /\ (forall (urlStr : string) (sz : Z) (modified : option Z),
        fst (run (latestSnapshot BucketName sess protocol network))
          = {| status := 200; body := H_latest urlStr sz modified |} ->
        exists latest : Object,
          Presign sess {| goi_Bucket := BucketName; goi_Key := Key latest |}
                  900000000000
            = (urlStr, None)
          /\ sz = Size latest /\ modified = LastModified latest
          /\ snd (run (latestSnapshot BucketName sess protocol network))
             = [CallListObjectsV2Pages (pages_input BucketName protocol network);
                CallPresign {| goi_Bucket := BucketName; goi_Key := Key latest |}
                            900000000000]).
Proof.
  assert (Hvalue : 15 * time.Minute = 900000000000) by reflexivity.
  assert (Hunits : 900000000000 = 15 * 60 * time.Second) by reflexivity.
  split; [|split].
  - intros req expire Hin. cut (expire = 15 * time.Minute).
    { intros ->. by rewrite <- Hunits. }
    apply in_app_or in Hin. destruct Hin as [Hin|Hin].
    + destruct (ListObjectsV2 sess (list_input BucketName protocol network))
        as [resp err] eqn:Hlist.
      destruct (listFiles_calls _ _ _ _ _ _ Hlist) as (signed & _ & Hcalls).
      rewrite Hcalls in Hin. destruct Hin as [?|Hin]; [done|].
      apply in_map_iff in Hin. by destruct Hin as (item & [= _ <-] & _).
    + rewrite latestSnapshot_run in Hin.
      destruct (ListObjectsV2Pages_feed sess _) as [pages [e|]].
      { by destruct Hin as [?|[]]. }
      destruct (fold_left _ _ _) as [latest|].
      * destruct (Presign sess _ _) as [urlStr err].
        by destruct Hin as [?|[[= _ <-]|[]]].
      * by destruct Hin as [?|[]].
  - intros files f.
    destruct (ListObjectsV2 sess (list_input BucketName protocol network))
      as [resp [e|]] eqn:Hlist.
    { rewrite listFiles_run. cbv zeta. by rewrite Hlist. }
    destruct (listFiles_outcome BucketName sess protocol network resp Hlist)
      as [[Hall ->]|(ok & bad & e & _ & _ & _ & ->)]; [|done].
    simpl. intros [= <-] Hf.
    apply in_map_iff in Hf. destruct Hf as (item & <- & Hitem).
    specialize (Hall item Hitem). unfold presign_fails in Hall.
    split.
    + unfold link_of, presign_input in *. simpl.
      change 900000000000 with (15 * time.Minute).
      destruct (Presign sess _ _) as [u err]. simpl in *. by rewrite Hall.
    + right. change 900000000000 with (15 * time.Minute).
      apply in_map_iff. by exists item.
  - intros urlStr sz modified. rewrite latestSnapshot_run.
    destruct (ListObjectsV2Pages_feed sess _) as [pages [e|]]; [done|].
    destruct (fold_left _ _ _) as [latest|]; [|done].
    destruct (Presign sess _ _) as [urlStr' [e|]] eqn:Hurl; [done|].
    simpl. intros [= -> <- <-]. exists latest.
    change 900000000000 with (15 * time.Minute).
    by repeat split.
Qed.

(** ** [listKeys] *)

Section ListKeys.

Local Open Scope string_scope.

(** The test on the length and the two indexed reads, by the shape of
    the split key. *)
Lemma listKeys_visit_cases (dirMap : gmap string bool) (item : Object) :
  match Split (Key item) "/" with
  | seg0 :: seg1 :: _ =>
      listKeys_visit dirMap item = <[ seg0 +:+ "/" +:+ seg1 := true ]> dirMap
  | _ => listKeys_visit dirMap item = dirMap
  end.
Proof.
  unfold listKeys_visit.
  by destruct (Split (Key item) "/") as [|seg0 [|seg1 rest]].
Qed.

(** The keys of [dirMap] after the loop. *)
Lemma dirMap_lookup (items : list Object) (dirMap : gmap string bool)
    (dir : string) :
  is_Some (fold_left listKeys_visit items dirMap !! dir) <->
  is_Some (dirMap !! dir)
  \/ exists (item : Object) (seg0 seg1 : string) (rest : list string),
       In item items
       /\ Split (Key item) "/" = seg0 :: seg1 :: rest
       /\ dir = seg0 +:+ "/" +:+ seg1.
Proof.
  revert dirMap. induction items as [|item items IH]; intros dirMap; simpl.
  - split; [by left|]. intros [?|(? & ? & ? & ? & [] & _)]. done.
  - rewrite IH. clear IH.
    pose proof (listKeys_visit_cases dirMap item) as Hvisit.
    destruct (Split (Key item) "/") as [|seg0 [|seg1 rest]] eqn:Hsplit;
      rewrite Hvisit; clear Hvisit.
    + split; (intros [?|(x & a & b & r & Hin & Hx & ->)]; [by left|right]).
      * exists x, a, b, r. split; [by right|done].
      * destruct Hin as [<-|Hin]; [congruence|]. by exists x, a, b, r.
    + split; (intros [?|(x & a & b & r & Hin & Hx & ->)]; [by left|right]).
      * exists x, a, b, r. split; [by right|done].
      * destruct Hin as [<-|Hin]; [congruence|]. by exists x, a, b, r.
    + split.
      * intros [Hsome|(x & a & b & r & Hin & Hx & ->)].
        -- destruct (decide (seg0 +:+ "/" +:+ seg1 = dir)) as [<-|Hne].
           ++ right. exists item, seg0, seg1, rest. split; [by left|done].
           ++ left. by rewrite lookup_insert_ne in Hsome.
        -- right. exists x, a, b, r. split; [by right|done].
      * intros [Hsome|(x & a & b & r & Hin & Hx & ->)].
        -- left. destruct (decide (seg0 +:+ "/" +:+ seg1 = dir)) as [<-|Hne].
           ++ by rewrite lookup_insert_eq.
           ++ by rewrite lookup_insert_ne.
        -- destruct Hin as [<-|Hin].
           ++ left. rewrite Hsplit in Hx. injection Hx as <- <- _.
              by rewrite lookup_insert_eq.
           ++ right. by exists x, a, b, r.
Qed.

(** No piece of a split contains the separator. *)
Lemma Split_pieces_no_sep (s : string) (sep : ascii) (piece : string) :
  In piece (Split s sep) -> Contains piece (String sep "") = false.
Proof.
  revert piece. induction s as [|c s IH]; intros piece; simpl.
  - by intros [<-|[]].
  - destruct (Ascii.eqb_spec c sep) as [->|Hne].
    + intros [<-|Hin]; [done|by apply IH].
    + destruct (Split s sep) as [|first others] eqn:Hsplit.
      * intros [<-|[]]. simpl. by destruct (ascii_dec sep c) as [->|].
      * intros [<-|Hin]; [|apply IH; by right].
        simpl. destruct (ascii_dec sep c) as [->|_]; [done|].
        apply IH. by left.
Qed.

Lemma Contains_byte_cons (c sep : ascii) (s : string) :
  Contains (String c s) (String sep "")
  = Ascii.eqb c sep || Contains s (String sep "").
Proof.
  change (Contains (String c s) (String sep ""))
    with (String.prefix (String sep "") (String c s)
          || Contains s (String sep "")).
  f_equal. unfold String.prefix.
  destruct (ascii_dec sep c) as [->|Hne].
  - rewrite Ascii.eqb_refl. by destruct s.
  - symmetry. apply Ascii.eqb_neq. congruence.
Qed.

(** Two segments without a slash are recovered from their join. *)
Lemma join_segments_inj (a b a' b' : string) :
  Contains a "/" = false -> Contains a' "/" = false ->
  a +:+ "/" +:+ b = a' +:+ "/" +:+ b' -> a = a' /\ b = b'.
Proof.
  revert a'. induction a as [|c a IH]; intros [|c' a'];
    rewrite ?string_append_cons, ?string_append_empty, ?Contains_byte_cons.
  - by intros _ _ [= ->].
  - intros _ Ha' [= <- _]. by rewrite Ascii.eqb_refl in Ha'.
  - intros Ha _ [= -> _]. by rewrite Ascii.eqb_refl in Ha.
  - intros Ha Ha' [= -> Hrest].
    apply orb_false_iff in Ha, Ha'.
    destruct Ha as [_ Ha], Ha' as [_ Ha'].
    by destruct (IH a' Ha Ha' Hrest) as [-> ->].
Qed.

End ListKeys.

(** What [listKeys] answers: the error of the listing is dropped and the
    answer is always 200. *)
Lemma listKeys_run (BucketName : string) (NewSession : Session)
    (range_keys : gmap string bool -> list string) :
  run (listKeys BucketName NewSession range_keys)
  = ({| status := 200;
        body := H_dirs (range_keys
                  (fold_left listKeys_visit
                     (Contents (fst (ListObjectsV2 NewSession
                                       (bucket_input BucketName))))
                     ∅)) |},
     [CallListObjectsV2 (bucket_input BucketName)]).
Proof.
  unfold run, listKeys, bind, call, bucket_input.
  by destruct (ListObjectsV2 NewSession _) as [resp err].
Qed.

(** C6: whatever order the map is visited in, [listKeys] answers 200 with
    a list without duplicates that holds a string exactly when it is
    [seg0/seg1] for the first two pieces of some listed key that splits on
    [/] into at least two pieces; the two pieces are determined by the
    string, so the strings stand for distinct pairs. *)
Theorem listKeys_distinct_namespaces
    (BucketName : string) (NewSession : Session)
    (range_keys : gmap string bool -> list string)
    (resp : ListObjectsV2Output) (err : option error) :
  (forall m : gmap string bool, range_keys m ≡ₚ (map_to_list m).*1) ->
  ListObjectsV2 NewSession (bucket_input BucketName) = (resp, err) ->
  exists dirs : list string,
    run (listKeys BucketName NewSession range_keys)
    = ({| status := 200; body := H_dirs dirs |},
       [CallListObjectsV2 (bucket_input BucketName)])
    /\ NoDup dirs
    /\ (forall dir : string,
          In dir dirs <->
          exists (item : Object) (seg0 seg1 : string) (rest : list string),
            In item (Contents resp)
            /\ Split (Key item) "/" = seg0 :: seg1 :: rest
            /\ dir = seg0 +:+ "/" +:+ seg1)
    /\ (forall (item item' : Object) (seg0 seg1 seg0' seg1' : string)
               (rest rest' : list string),
          Split (Key item) "/" = seg0 :: seg1 :: rest ->
          Split (Key item') "/" = seg0' :: seg1' :: rest' ->
          seg0 +:+ "/" +:+ seg1 = seg0' +:+ "/" +:+ seg1' ->
          seg0 = seg0' /\ seg1 = seg1').
Proof.
  intros Horder Hlist.
  eexists. split; [by rewrite listKeys_run, Hlist|]. simpl.
  split; [|split].
  - rewrite Horder. apply NoDup_fst_map_to_list.
  - intros dir. rewrite <- list_elem_of_In, Horder, list_elem_of_fmap.
    split.
    + intros ([k v] & -> & Hkv). apply elem_of_map_to_list in Hkv.
      assert (Hsome : is_Some (fold_left listKeys_visit (Contents resp) ∅ !! k))
        by (by exists v).
      apply dirMap_lookup in Hsome. destruct Hsome as [Hempty|Hin]; [|done].
      rewrite lookup_empty in Hempty. by destruct Hempty.
    + intros Hin.
      assert (Hsome : is_Some (fold_left listKeys_visit (Contents resp) ∅ !! dir))
        by (apply dirMap_lookup; by right).
      destruct Hsome as [v Hv]. exists (dir, v). split; [done|].
      by apply elem_of_map_to_list.
  - intros item item' seg0 seg1 seg0' seg1' rest rest' Hsplit Hsplit' Hjoin.
    apply (join_segments_inj seg0 seg1 seg0' seg1'); [| |done].
    + apply (Split_pieces_no_sep (Key item) "/"). rewrite Hsplit. by left.
    + apply (Split_pieces_no_sep (Key item') "/"). rewrite Hsplit'. by left.
Qed.

(** C7, the code at a failing listing: on a store that cannot be
    reached [listKeys] answers 200 with an empty list of directories,
    where [listFiles] and [latestSnapshot] answer 500 with the error. *)
Theorem listKeys_failed_listing_answers_200 :
  ListObjectsV2 Fixtures.unreachable (bucket_input "snapshots")
    = ({| Contents := [] |}, Some Fixtures.connection_refused)
  /\ run (listKeys "snapshots" Fixtures.unreachable Fixtures.keys_in_order)
     = ({| status := 200; body := H_dirs [] |},
        [CallListObjectsV2 (bucket_input "snapshots")])
  /\ fst (run (listFiles "snapshots" Fixtures.unreachable "btc" "mainnet"))
     = {| status := 500;
          body := H_error (Error_ Fixtures.connection_refused) |}
  /\ fst (run (latestSnapshot "snapshots" Fixtures.unreachable "btc" "mainnet"))
     = {| status := 500;
          body := H_error (Error_ Fixtures.connection_refused) |}.
Proof. repeat split. Qed.

(** ** [snapshotInfo] *)

Lemma snapshotInfo_calls (BucketName protocol network : string)
    (sess : Session) (json_Unmarshal : string -> JSON * option error) :
  snd (run (snapshotInfo BucketName sess json_Unmarshal protocol network))
  = [CallGetObject (info_input BucketName protocol network)].
Proof.
  unfold run, snapshotInfo, bind, call, info_input.
  destruct (GetObject sess _) as [result [[code text|text]|]]; simpl; try done.
  - by destruct (code =? ErrCodeNoSuchKey)%string.
  - destruct (ReadAll result) as [content [e|]]; [done|].
    by destruct (json_Unmarshal content) as [data [e|]].
Qed.

Lemma snapshotInfo_store_error (BucketName protocol network : string)
    (sess : Session) (json_Unmarshal : string -> JSON * option error)
    (result : GetObjectOutput) (e : error) :
  GetObject sess (info_input BucketName protocol network) = (result, Some e) ->
  fst (run (snapshotInfo BucketName sess json_Unmarshal protocol network))
  = if is_no_such_key e
    then {| status := 404; body := H_message "Snapshot not found" |}
    else {| status := 500; body := H_error (Error_ e) |}.
Proof.
  unfold run, snapshotInfo, bind, call, info_input. intros ->.
  destruct e as [code text|text]; simpl; [|done].
  by destruct (code =? ErrCodeNoSuchKey)%string.
Qed.

Lemma snapshotInfo_decode (BucketName protocol network : string)
    (sess : Session) (json_Unmarshal : string -> JSON * option error)
    (result : GetObjectOutput) (content : string) :
  GetObject sess (info_input BucketName protocol network) = (result, None) ->
  ReadAll result = (content, None) ->
  fst (run (snapshotInfo BucketName sess json_Unmarshal protocol network))
  = match json_Unmarshal content with
    | (_, Some e) => {| status := 500; body := H_error (Error_ e) |}
    | (data, None) => {| status := 200; body := data_body data |}
    end.
Proof.
  unfold run, snapshotInfo, bind, call, info_input. intros -> ->.
  by destruct (json_Unmarshal content) as [data [e|]].
Qed.

(** C5, as the code has it: an error of [GetObject] with the code
    [NoSuchKey], whatever its text, is answered 404 "Snapshot not found";
    every other error of the store is answered 500 with its text, also
    when the text mentions [NoSuchKey]; a body the decoder rejects is
    answered 500 with the decoder's text, a response of the same status
    and member as the one for a store failure, and both differ from the
    404 answer. *)
Theorem snapshotInfo_failure_kinds
    (BucketName protocol network : string)
    (json_Unmarshal : string -> JSON * option error) :
  let input := info_input BucketName protocol network in
  let answer := fun sess : Session =>
    fst (run (snapshotInfo BucketName sess json_Unmarshal protocol network)) in
  (forall (sess : Session) (result : GetObjectOutput) (text : string),
      GetObject sess input = (result, Some (awserr_Error ErrCodeNoSuchKey text)) ->
      answer sess = {| status := 404; body := H_message "Snapshot not found" |})
  /\ (forall (sess : Session) (result : GetObjectOutput) (e : error),
        GetObject sess input = (result, Some e) ->
        is_no_such_key e = false ->
        answer sess = {| status := 500; body := H_error (Error_ e) |})
  /\ (forall (sess : Session) (result : GetObjectOutput) (content : string)
             (data : JSON) (e : error),
        GetObject sess input = (result, None) ->
        ReadAll result = (content, None) ->
        json_Unmarshal content = (data, Some e) ->
        answer sess = {| status := 500; body := H_error (Error_ e) |})
  /\ (forall (down broken missing : Session)
             (result result' result'' : GetObjectOutput)
             (content text : string) (data : JSON) (e e' : error),
        GetObject down input = (result, Some e) ->
        is_no_such_key e = false ->
        GetObject broken input = (result', None) ->
        ReadAll result' = (content, None) ->
        json_Unmarshal content = (data, Some e') ->
        GetObject missing input
          = (result'', Some (awserr_Error ErrCodeNoSuchKey text)) ->
        response_kind (answer broken) = response_kind (answer down)
        /\ response_kind (answer broken) <> response_kind (answer missing)).
Proof.
  intros input answer.
  assert (Hmissing : forall sess result text,
    GetObject sess input = (result, Some (awserr_Error ErrCodeNoSuchKey text)) ->
    answer sess = {| status := 404; body := H_message "Snapshot not found" |}).
  { intros sess result text Hget. unfold answer.
    by rewrite (snapshotInfo_store_error _ _ _ _ _ _ _ Hget). }
  assert (Hdown : forall sess result e,
    GetObject sess input = (result, Some e) -> is_no_such_key e = false ->
    answer sess = {| status := 500; body := H_error (Error_ e) |}).
  { intros sess result e Hget Hcode. unfold answer.
    by rewrite (snapshotInfo_store_error _ _ _ _ _ _ _ Hget), Hcode. }
  assert (Hbroken : forall sess result content data e,
    GetObject sess input = (result, None) -> ReadAll result = (content, None) ->
    json_Unmarshal content = (data, Some e) ->
    answer sess = {| status := 500; body := H_error (Error_ e) |}).
  { intros sess result content data e Hget Hread Hjson. unfold answer.
    by rewrite (snapshotInfo_decode _ _ _ _ _ _ _ Hget Hread), Hjson. }
  split; [exact Hmissing|]. split; [exact Hdown|]. split; [exact Hbroken|].
  intros down broken missing result result' result'' content text data e e'
    Hget Hcode Hget' Hread Hjson Hget''.
  rewrite (Hdown _ _ _ Hget Hcode), (Hbroken _ _ _ _ _ Hget' Hread Hjson),
    (Hmissing _ _ _ Hget'').
  by split.
Qed.

(** C5 as stated fails: a body that does not parse and a store that
    cannot be reached are both answered with status 500 and the member
    [error]; only the free text differs. *)
Lemma snapshotInfo_malformed_not_distinct :
  let broken :=
    fst (run (snapshotInfo "snapshots" (Fixtures.serving "{")
                Fixtures.literal_decoder "btc" "mainnet")) in
  let down :=
    fst (run (snapshotInfo "snapshots" Fixtures.unreachable
                Fixtures.literal_decoder "btc" "mainnet")) in
  broken = {| status := 500; body := H_error "unexpected end of JSON input" |}
  /\ down = {| status := 500;
               body := H_error (Error_ Fixtures.connection_refused) |}
  /\ ~ response_kind broken <> response_kind down.
Proof.
  repeat split. intros Hdistinct. by apply Hdistinct.
Qed.

(** * The statements at concrete stores *)

Import Fixtures.
Local Open Scope string_scope.

(** The first example of the specification: the February object is on
    the second page, next to the sentinel, and it is the one selected. *)
Example latestSnapshot_btc_mainnet :
  run (latestSnapshot "snapshots" btc "btc" "mainnet")
  = ({| status := 200;
        body := H_latest
                  "https://store/snapshots/btc/mainnet/2024-02-01T00-00-00.tar.gz"
                  20 (Some 100) |},
     [CallListObjectsV2Pages (pages_input "snapshots" "btc" "mainnet");
      CallPresign (presign_input "snapshots" february) 900000000000]).
Proof. reflexivity. Qed.

(** The second example: a namespace that holds its sentinel only. *)
Example latestSnapshot_eth_testnet :
  fst (run (latestSnapshot "snapshots" btc "eth" "testnet"))
  = {| status := 404; body := H_message "No snapshots found" |}.
Proof. reflexivity. Qed.

(** The order is the one of the bytes: upper case before lower case,
    and a byte above 127 after both. *)
Example byte_order :
  ("Z" <? "a") = true /\ ("z" <? String (ascii_of_nat 200) "") = true
  /\ ("2024-02" <? "2024-10") = true /\ ("9" <? "10") = false.
Proof. repeat split. Qed.

Lemma latestSnapshot_selects_greatest_key_witness :
  exists latest : Object,
    Key latest <> sentinel_key "btc" "mainnet"
    /\ snd (run (latestSnapshot "snapshots" btc "btc" "mainnet"))
       = [CallListObjectsV2Pages (pages_input "snapshots" "btc" "mainnet");
          CallPresign (presign_input "snapshots" latest) (15 * time.Minute)].
Proof.
  destruct (latestSnapshot_selects_greatest_key "snapshots" "btc" "mainnet" btc
              (fst (ListObjectsV2Pages_feed btc
                      (pages_input "snapshots" "btc" "mainnet")))
              january)
    as (latest & _ & Hne & _ & Hcalls & _).
  - reflexivity.
  - vm_compute. left. reflexivity.
  - vm_compute. discriminate.
  - exists latest. split; assumption.
Defined.

Lemma latestSnapshot_excludes_sentinel_witness :
  goi_Key (presign_input "snapshots" february) <> sentinel_key "btc" "mainnet".
Proof.
  apply (proj1 (latestSnapshot_excludes_sentinel "snapshots" "btc" "mainnet" btc)
           (presign_input "snapshots" february) (15 * time.Minute)).
  vm_compute. right. left. reflexivity.
Defined.

Lemma latestSnapshot_not_found_witness :
  run (latestSnapshot "snapshots" btc "eth" "testnet")
  = ({| status := 404; body := H_message "No snapshots found" |},
     [CallListObjectsV2Pages (pages_input "snapshots" "eth" "testnet")]).
Proof.
  apply (proj1 (latestSnapshot_not_found "snapshots" "eth" "testnet") btc
           (fst (ListObjectsV2Pages_feed btc
                   (pages_input "snapshots" "eth" "testnet")))).
  - reflexivity.
  - intros x Hin. vm_compute in Hin. destruct Hin as [<-|[]]. reflexivity.
Defined.

Lemma listFiles_all_or_nothing_witness :
  fst (run (listFiles "snapshots" (verbatim mixed_listing "")
              "btc" "mainnet"))
  = {| status := 200;
       body := files_body
                 (map (link_of "snapshots"
                         (verbatim mixed_listing ""))
                    [january; february]) |}
  /\ exists (failed : Object) (e : error),
       fst (run (listFiles "snapshots"
                   (verbatim mixed_listing (Key february))
                   "btc" "mainnet"))
       = {| status := 500; body := H_error (Error_ e) |}.
Proof.
  split.
  - pose proof (proj1 (proj2 (listFiles_all_or_nothing "snapshots" "btc" "mainnet"
                  (verbatim mixed_listing "")))
                  {| Contents := mixed_listing |}) as Hsigned.
    rewrite Hsigned.
    + reflexivity.
    + reflexivity.
    + intros x Hin. vm_compute in Hin.
      destruct Hin as [<-|[<-|[]]]; reflexivity.
  - destruct (proj1 (proj2 (proj2 (listFiles_all_or_nothing "snapshots" "btc"
                "mainnet"
                (verbatim mixed_listing (Key february)))))
                {| Contents := mixed_listing |} february
                (other_error "presign: refused"))
      as (failed & e & _ & _ & Hanswer).
    + reflexivity.
    + vm_compute. right. left. reflexivity.
    + reflexivity.
    + exists failed, e. exact Hanswer.
Defined.

Lemma snapshotInfo_failure_kinds_witness :
  response_kind
    (fst (run (snapshotInfo "snapshots" (serving "{")
                 literal_decoder "btc" "mainnet")))
  = response_kind
      (fst (run (snapshotInfo "snapshots" unreachable
                   literal_decoder "btc" "mainnet")))
  /\ response_kind
       (fst (run (snapshotInfo "snapshots" (serving "{")
                    literal_decoder "btc" "mainnet")))
     <> response_kind
          (fst (run (snapshotInfo "snapshots" btc
                       literal_decoder "btc" "mainnet"))).
Proof.
  apply (proj2 (proj2 (proj2 (snapshotInfo_failure_kinds "snapshots" "btc"
           "mainnet" literal_decoder)))
           unreachable (serving "{") btc
           {| ReadAll := ("", None) |} {| ReadAll := ("{", None) |}
           {| ReadAll := ("", None) |} "{"
           "NoSuchKey: The specified key does not exist." JNull
           connection_refused
           (other_error "unexpected end of JSON input"));
    reflexivity.
Defined.

Lemma listKeys_distinct_namespaces_witness :
  exists dirs : list string,
    run (listKeys "snapshots"
           (store [flat_map id btc_pages])
           keys_in_order)
    = ({| status := 200; body := H_dirs dirs |},
       [CallListObjectsV2 (bucket_input "snapshots")])
    /\ NoDup dirs
    /\ (In "btc/mainnet" dirs <->
        exists (item : Object) (seg0 seg1 : string) (rest : list string),
          In item (flat_map id btc_pages)
          /\ Split (Key item) "/" = seg0 :: seg1 :: rest
          /\ "btc/mainnet" = seg0 +:+ "/" +:+ seg1).
Proof.
  destruct (listKeys_distinct_namespaces "snapshots"
              (store [flat_map id btc_pages])
              keys_in_order
              {| Contents := flat_map id btc_pages |} None)
    as (dirs & Hrun & Hnodup & Hin & _).
  - intros m. reflexivity.
  - reflexivity.
  - exists dirs. split; [exact Hrun|]. split; [exact Hnodup|]. apply Hin.
Defined.

Lemma listFiles_links_pass_filter_witness :
  filename (link_of "snapshots" (verbatim mixed_listing "") january) <> Key readme.
Proof.
  apply (proj1 (proj2 (listFiles_links_pass_filter "snapshots" "btc" "mainnet"
           (verbatim mixed_listing "")
           {| Contents := mixed_listing |}
           (map (link_of "snapshots" (verbatim mixed_listing ""))
              [january; february])
           eq_refl eq_refl)) readme).
  - vm_compute. right. left. reflexivity.
  - left. reflexivity.
  - left. reflexivity.
Defined.

Lemma presign_expiry_fifteen_minutes_witness :
  exists latest : Object,
    Presign btc {| goi_Bucket := "snapshots"; goi_Key := Key latest |}
            900000000000
      = ("https://store/snapshots/btc/mainnet/2024-02-01T00-00-00.tar.gz", None)
    /\ 20 = Size latest /\ Some 100 = LastModified latest
    /\ snd (run (latestSnapshot "snapshots" btc "btc" "mainnet"))
       = [CallListObjectsV2Pages (pages_input "snapshots" "btc" "mainnet");
          CallPresign {| goi_Bucket := "snapshots"; goi_Key := Key latest |}
                      900000000000].
Proof.
  apply (proj2 (proj2 (presign_expiry_fifteen_minutes "snapshots" "btc"
                         "mainnet" btc))).
  reflexivity.
Defined.

Lemma listFiles_empty_success_witness :
  run (listFiles "snapshots" (verbatim [readme] "") "btc" "mainnet")
  = ({| status := 200; body := files_body [] |},
     [CallListObjectsV2 (list_input "snapshots" "btc" "mainnet")]).
Proof.
  apply (listFiles_empty_success "snapshots" "btc" "mainnet"
           (verbatim [readme] "") {| Contents := [readme] |}).
  - reflexivity.
  - intros item [<-|[]]. reflexivity.
Defined.

(** * Further properties of the handlers *)

(** ** [latestSnapshot]: what the selection depends on *)

Lemma select_key_set (prefix : string) (items items' : list Object) :
  (forall k : string, In k (map Key items) <-> In k (map Key items')) ->
  option_map Key (fold_left (latestSnapshot_visit prefix) items None)
  = option_map Key (fold_left (latestSnapshot_visit prefix) items' None).
Proof.
  intros Hkeys.
  assert (Hle : forall l l' o o',
    (forall k : string, In k (map Key l) -> In k (map Key l')) ->
    fold_left (latestSnapshot_visit prefix) l None = Some o ->
    fold_left (latestSnapshot_visit prefix) l' None = Some o' ->
    (Key o <=? Key o') = true).
  { intros l l' o o' Hsub Hsel Hsel'.
    destruct (select_some _ _ _ _ Hsel) as ([?|[Hin Hne]] & _ & _); [done|].
    destruct (select_some _ _ _ _ Hsel') as (_ & _ & Hmax).
    assert (Hk : In (Key o) (map Key l')) by (apply Hsub; by apply in_map).
    apply in_map_iff in Hk. destruct Hk as (y & Hy & Hin').
    rewrite <- Hy. apply Hmax; [done|]. by rewrite Hy. }
  assert (Hnone : forall l l' o,
    (forall k : string, In k (map Key l) -> In k (map Key l')) ->
    fold_left (latestSnapshot_visit prefix) l None = Some o ->
    fold_left (latestSnapshot_visit prefix) l' None = None -> False).
  { intros l l' o Hsub Hsel Hsel'.
    destruct (select_some _ _ _ _ Hsel) as ([?|[Hin Hne]] & _ & _); [done|].
    apply select_none in Hsel'. destruct Hsel' as [_ Hall].
    assert (Hk : In (Key o) (map Key l')) by (apply Hsub; by apply in_map).
    apply in_map_iff in Hk. destruct Hk as (y & Hy & Hin').
    apply Hne. rewrite <- Hy. by apply Hall. }
  destruct (fold_left _ items None) as [o|] eqn:Hsel;
    destruct (fold_left _ items' None) as [o'|] eqn:Hsel'; simpl.
  - f_equal. apply String.leb_antisym.
    + apply (Hle items items'); [|done|done]. intros k. apply Hkeys.
    + apply (Hle items' items); [|done|done]. intros k. apply Hkeys.
  - destruct (Hnone items items' o); [|done|done]. intros k. apply Hkeys.
  - destruct (Hnone items' items o'); [|done|done]. intros k. apply Hkeys.
  - done.
Qed.

(** X1: the key [latestSnapshot] asks a link for depends only on the set
    of keys the listing holds: two successful listings with the same set
    of keys, in any order, with any repetitions, page boundaries, sizes
    and timestamps, lead to the same calls. *)
Theorem latestSnapshot_depends_on_key_set
    (BucketName protocol network : string) (sess sess' : Session)
    (pages pages' : list ListObjectsV2Output) :
  ListObjectsV2Pages_feed sess (pages_input BucketName protocol network)
    = (pages, None) ->
  ListObjectsV2Pages_feed sess' (pages_input BucketName protocol network)
    = (pages', None) ->
  (forall k : string,
      In k (map Key (enumerated pages)) <-> In k (map Key (enumerated pages'))) ->
  snd (run (latestSnapshot BucketName sess protocol network))
  = snd (run (latestSnapshot BucketName sess' protocol network)).
Proof.
  intros Hfeed Hfeed' Hkeys.
  rewrite !latestSnapshot_run, Hfeed, Hfeed'.
  pose proof (select_key_set (namespace_prefix protocol network) _ _ Hkeys)
    as Hsame.
  destruct (fold_left _ (enumerated pages) None) as [o|];
    destruct (fold_left _ (enumerated pages') None) as [o'|];
    simpl in Hsame; try discriminate; [|done].
  injection Hsame as Hkey. unfold presign_input. rewrite Hkey.
  by destruct (Presign sess _ _), (Presign sess' _ _).
Qed.

(** X2: the selection only grows: when the pass over some pages has
    selected an object, the pass over these pages followed by more pages
    selects an object whose key is byte-wise greater or equal. *)
Theorem latestSnapshot_selection_grows
    (prefix : string) (pages more : list ListObjectsV2Output) (o : Object) :
  EachPage (latestSnapshot_page prefix) None pages = Some o ->
  exists o' : Object,
    EachPage (latestSnapshot_page prefix) None (pages ++ more) = Some o'
    /\ (Key o <=? Key o') = true.
Proof.
  rewrite !EachPage_latestSnapshot. unfold enumerated.
  rewrite flat_map_app, fold_left_app. intros ->.
  destruct (fold_left (latestSnapshot_visit prefix) (flat_map Contents more)
              (Some o)) as [o'|] eqn:Hmore.
  - exists o'. split; [done|].
    destruct (select_some _ _ _ _ Hmore) as (_ & Hacc & _). by apply Hacc.
  - apply select_none in Hmore. by destruct Hmore.
Qed.

(** X3: [latestSnapshot] always begins with the paged listing and asks
    for at most one link, for an enumerated object and only after a
    listing that succeeded; after a failed listing it asks for none, even
    when the pages delivered before the failure hold snapshots. *)
Theorem latestSnapshot_presign_budget
    (BucketName protocol network : string) (sess : Session) :
  let input := pages_input BucketName protocol network in
  let calls := snd (run (latestSnapshot BucketName sess protocol network)) in
  (calls = [CallListObjectsV2Pages input]
   \/ exists (pages : list ListObjectsV2Output) (latest : Object),
        ListObjectsV2Pages_feed sess input = (pages, None)
        /\ In latest (enumerated pages)
        /\ calls = [CallListObjectsV2Pages input;
                    presign_call BucketName latest])
  /\ (forall (pages : list ListObjectsV2Output) (e : error),
        ListObjectsV2Pages_feed sess input = (pages, Some e) ->
        calls = [CallListObjectsV2Pages input]).
Proof.
  intros input calls. unfold calls, input. rewrite latestSnapshot_run.
  destruct (ListObjectsV2Pages_feed sess _) as [pages [e|]].
  { split; [by left|done]. }
  split; [|done].
  destruct (fold_left _ _ _) as [latest|] eqn:Hsel; [|by left].
  right. exists pages, latest.
  destruct (select_some _ _ _ _ Hsel) as ([?|[Hin _]] & _ & _); [done|].
  by destruct (Presign sess _ _).
Qed.

(** ** [listFiles]: the first refusal, and what the filter lets through *)

Lemma first_failure_unique {A : Type} (P : A -> Prop)
    (ok ok' rest rest' : list A) (bad bad' : A) :
  (ok ++ bad :: rest = ok' ++ bad' :: rest')%list ->
  (forall x, In x ok -> P x) -> ~ P bad ->
  (forall x, In x ok' -> P x) -> ~ P bad' ->
  ok = ok' /\ bad = bad'.
Proof.
  revert ok'. induction ok as [|x ok IH]; intros [|x' ok']; simpl.
  - by intros [= -> _].
  - intros [= -> _] _ Hbad Hok' _. destruct Hbad. apply Hok'. by left.
  - intros [= -> _] Hok _ _ Hbad'. destruct Hbad'. apply Hok. by left.
  - intros [= -> Htail] Hok Hbad Hok' Hbad'.
    destruct (IH ok' Htail) as [-> ->]; auto.
Qed.

(** X4: [listFiles] reports the first refusal and stops there: when the
    matching objects are [ok], then [bad], then [rest], the links of [ok]
    are issued and the one of [bad] is refused, the answer is 500 with
    the text of that refusal, the links of [ok] and [bad] have been asked
    for in this order, and none of [rest]. *)
Theorem listFiles_stops_at_first_failure
    (BucketName protocol network : string) (sess : Session)
    (resp : ListObjectsV2Output) (ok rest : list Object) (bad : Object)
    (e : error) :
  ListObjectsV2 sess (list_input BucketName protocol network) = (resp, None) ->
  List.filter (passes_filter protocol network) (Contents resp)
    = (ok ++ bad :: rest)%list ->
  (forall x, In x ok -> presign_fails BucketName sess x = None) ->
  presign_fails BucketName sess bad = Some e ->
  run (listFiles BucketName sess protocol network)
  = ({| status := 500; body := H_error (Error_ e) |},
     CallListObjectsV2 (list_input BucketName protocol network)
       :: map (presign_call BucketName) (ok ++ [bad])%list).
Proof.
  intros Hlist Hmatched Hok Hbad.
  destruct (listFiles_outcome BucketName sess protocol network resp Hlist)
    as [[Hall _]|(ok' & bad' & e' & [tail Hpre] & Hok' & Hbad' & ->)].
  - rewrite Hall in Hbad; [done|].
    rewrite Hmatched. apply in_or_app. right. by left.
  - rewrite Hmatched, <- app_assoc in Hpre. simpl in Hpre.
    destruct (first_failure_unique
                (fun x => presign_fails BucketName sess x = None)
                ok ok' rest tail bad bad' Hpre) as [<- <-]; try done.
    + by rewrite Hbad.
    + by rewrite Hbad'.
    + rewrite Hbad in Hbad'. by injection Hbad' as <-.
Qed.

(** X5: on a listing that holds only keys under [protocol/network/], as
    a store that applies the prefix returns, the two substring tests drop
    nothing: when every link is issued, [listFiles] answers with one link
    for every listed object. *)
Theorem listFiles_links_whole_listing
    (BucketName protocol network : string) (sess : Session)
    (resp : ListObjectsV2Output) :
  ListObjectsV2 sess (list_input BucketName protocol network) = (resp, None) ->
  (forall item : Object,
      In item (Contents resp) ->
      String.prefix (namespace_prefix protocol network) (Key item) = true) ->
  (forall item : Object,
      In item (Contents resp) -> presign_fails BucketName sess item = None) ->
  run (listFiles BucketName sess protocol network)
  = ({| status := 200;
        body := files_body (map (link_of BucketName sess) (Contents resp)) |},
     CallListObjectsV2 (list_input BucketName protocol network)
       :: map (presign_call BucketName) (Contents resp)).
Proof.
  intros Hlist Hprefix Hsigned.
  assert (Hall : List.filter (passes_filter protocol network) (Contents resp)
                 = Contents resp).
  { induction (Contents resp) as [|item items IH]; simpl; [done|].
    rewrite prefix_passes_filter by (apply Hprefix; by left).
    f_equal. apply IH; intros x Hx; [apply Hprefix|apply Hsigned]; by right. }
  rewrite (listFiles_all_signed _ _ _ _ _ Hlist); rewrite Hall; [done|].
  exact Hsigned.
Qed.

(** [strings.Contains] holds exactly of the strings that have the
    substring somewhere. *)
Lemma Contains_iff (s sub : string) :
  Contains s sub = true <-> exists a c : string, s = a +:+ sub +:+ c.
Proof.
  split.
  - induction s as [|x s IH].
    + change (Contains "" sub) with (String.prefix sub "" || false).
      rewrite orb_false_r. intros Hpre.
      destruct (prefix_split _ _ Hpre) as [r ->]. by exists "", r.
    + change (Contains (String x s) sub)
        with (String.prefix sub (String x s) || Contains s sub).
      intros Hor. apply orb_true_iff in Hor. destruct Hor as [Hpre|Htail].
      * destruct (prefix_split _ _ Hpre) as [r ->]. by exists "", r.
      * destruct (IH Htail) as (a & c & ->). by exists (String x a), c.
  - intros (a & c & ->). apply Contains_append_r, Contains_append_l.
Qed.

(** X6: the filter of [listFiles] lets a key through exactly when the
    protocol occurs somewhere in it and the network occurs somewhere in
    it, wherever and in whatever order; it does not ask that the key begin
    with [protocol/network/]. *)
Theorem passes_filter_iff (protocol network : string) (item : Object) :
  passes_filter protocol network item = true <->
  (exists a c : string, Key item = a +:+ protocol +:+ c)
  /\ (exists a c : string, Key item = a +:+ network +:+ c).
Proof.
  unfold passes_filter. by rewrite andb_true_iff, !Contains_iff.
Qed.

(** X7: [listFiles] does not set the metadata document aside: when the
    listing holds the key [protocol/network/snapshot-latest.json], the
    key that [latestSnapshot] never selects, and every link is issued, the
    answer of [listFiles] holds a link for it. *)
Theorem listFiles_links_sentinel
    (BucketName protocol network : string) (sess : Session)
    (resp : ListObjectsV2Output) (item : Object) :
  ListObjectsV2 sess (list_input BucketName protocol network) = (resp, None) ->
  (forall x : Object,
      In x (List.filter (passes_filter protocol network) (Contents resp)) ->
      presign_fails BucketName sess x = None) ->
  In item (Contents resp) ->
  Key item = sentinel_key protocol network ->
  exists files : list File,
    fst (run (listFiles BucketName sess protocol network))
    = {| status := 200; body := files_body files |}
    /\ In (link_of BucketName sess item) files
    /\ filename (link_of BucketName sess item) = sentinel_key protocol network.
Proof.
  intros Hlist Hsigned Hin Hkey.
  rewrite (listFiles_all_signed _ _ _ _ _ Hlist Hsigned). eexists.
  split; [done|]. split; [|done].
  apply in_map, filter_In. split; [done|].
  apply prefix_passes_filter. rewrite Hkey. apply prefix_append.
Qed.

(** ** [listKeys]: the directories that are answered *)

Lemma range_keys_spec (range_keys : gmap string bool -> list string)
    (dirMap : gmap string bool) :
  range_keys dirMap ≡ₚ (map_to_list dirMap).*1 ->
  (forall dir : string, In dir (range_keys dirMap) <-> is_Some (dirMap !! dir))
  /\ length (range_keys dirMap) = base.size dirMap.
Proof.
  intros Horder. split.
  - intros dir. rewrite <- list_elem_of_In, Horder, list_elem_of_fmap. split.
    + intros ([k v] & -> & Hkv). apply elem_of_map_to_list in Hkv. by exists v.
    + intros [v Hv]. exists (dir, v). split; [done|].
      by apply elem_of_map_to_list.
  - by rewrite Horder, length_fmap, length_map_to_list.
Qed.

(** Every value stored by the loop is [true]. *)
Lemma dirMap_values (items : list Object) (dirMap : gmap string bool)
    (dir : string) (v : bool) :
  fold_left listKeys_visit items dirMap !! dir = Some v ->
  dirMap !! dir = Some v \/ v = true.
Proof.
  revert dirMap. induction items as [|item items IH]; intros dirMap; simpl.
  - by left.
  - intros Hv. destruct (IH _ Hv) as [Hprev|?]; [|by right].
    pose proof (listKeys_visit_cases dirMap item) as Hvisit.
    destruct (Split (Key item) "/") as [|seg0 [|seg1 rest]];
      rewrite Hvisit in Hprev; try by left.
    destruct (decide (seg0 +:+ "/" +:+ seg1 = dir)) as [<-|Hne].
    + rewrite lookup_insert_eq in Hprev. right. congruence.
    + rewrite lookup_insert_ne in Hprev by done. by left.
Qed.

Lemma dirMap_size (items : list Object) (dirMap : gmap string bool) :
  (base.size (fold_left listKeys_visit items dirMap)
   <= base.size dirMap + length items)%nat.
Proof.
  revert dirMap. induction items as [|item items IH]; intros dirMap; simpl.
  - lia.
  - etrans; [apply IH|].
    pose proof (listKeys_visit_cases dirMap item) as Hvisit.
    destruct (Split (Key item) "/") as [|seg0 [|seg1 rest]];
      rewrite Hvisit; try lia.
    rewrite map_size_insert. destruct (dirMap !! _); unfold id; lia.
Qed.

(** The first piece of a split is a prefix of the string. *)
Lemma Split_head_prefix (s : string) (sep : ascii) (piece : string)
    (pieces : list string) :
  Split s sep = piece :: pieces -> String.prefix piece s = true.
Proof.
  revert piece pieces. induction s as [|c s IH]; intros piece pieces; simpl.
  - by intros [= <- _].
  - destruct (Ascii.eqb c sep).
    + by intros [= <- _].
    + destruct (Split s sep) as [|first others] eqn:Hsplit.
      * intros [= <- _]. simpl. destruct (ascii_dec c c); [by destruct s|done].
      * intros [= <- _]. simpl. destruct (ascii_dec c c); [|done].
        by apply (IH first others).
Qed.

(** The first two pieces, joined by the separator, are a prefix too. *)
Lemma Split_two_prefix (s : string) (sep : ascii) (a b : string)
    (rest : list string) :
  Split s sep = a :: b :: rest ->
  String.prefix (a +:+ String sep b) s = true.
Proof.
  revert a b rest. induction s as [|c s IH]; intros a b rest; simpl.
  - done.
  - destruct (Ascii.eqb_spec c sep) as [->|Hne].
    + intros [= <- Htail]. rewrite string_append_empty. simpl.
      destruct (ascii_dec sep sep); [|done].
      by apply (Split_head_prefix s sep b rest).
    + destruct (Split s sep) as [|first others] eqn:Hsplit; [done|].
      intros [= <- ->]. rewrite string_append_cons. simpl.
      destruct (ascii_dec c c); [|done]. by apply (IH first b rest).
Qed.

(** A string without the separator is its own single piece, and a piece
    without the separator in front of a separator is split off whole. *)
Lemma Split_no_sep (s : string) (sep : ascii) :
  Contains s (String sep "") = false -> Split s sep = [s].
Proof.
  induction s as [|c s IH]; [done|].
  rewrite Contains_byte_cons. intros Hor. apply orb_false_iff in Hor.
  destruct Hor as [Hc Hs]. simpl. by rewrite Hc, (IH Hs).
Qed.

Lemma Split_join (a b : string) (sep : ascii) :
  Contains a (String sep "") = false ->
  Split (a +:+ String sep "" +:+ b) sep = a :: Split b sep.
Proof.
  change (String sep "" +:+ b) with (String sep b).
  induction a as [|c a IH].
  - intros _. rewrite string_append_empty. simpl. by rewrite Ascii.eqb_refl.
  - rewrite Contains_byte_cons. intros Hor. apply orb_false_iff in Hor.
    destruct Hor as [Hc Ha]. rewrite string_append_cons. simpl.
    by rewrite Hc, (IH Ha).
Qed.

(** X8: the directories [listKeys] answers depend only on the set of
    keys the listing holds: two listings with the same set of keys, in
    any order and with any repetitions, sizes and timestamps, fill the
    same [dirMap], and the two answers hold the same directories up to
    the order in which the map is visited. *)
Theorem listKeys_depends_on_key_set
    (BucketName : string) (NewSession NewSession' : Session)
    (range_keys range_keys' : gmap string bool -> list string)
    (resp resp' : ListObjectsV2Output) (err err' : option error) :
  (forall m : gmap string bool, range_keys m ≡ₚ (map_to_list m).*1) ->
  (forall m : gmap string bool, range_keys' m ≡ₚ (map_to_list m).*1) ->
  ListObjectsV2 NewSession (bucket_input BucketName) = (resp, err) ->
  ListObjectsV2 NewSession' (bucket_input BucketName) = (resp', err') ->
  (forall k : string,
      In k (map Key (Contents resp)) <-> In k (map Key (Contents resp'))) ->
  fold_left listKeys_visit (Contents resp) ∅
  = fold_left listKeys_visit (Contents resp') ∅
  /\ exists dirs dirs' : list string,
       fst (run (listKeys BucketName NewSession range_keys))
       = {| status := 200; body := H_dirs dirs |}
       /\ fst (run (listKeys BucketName NewSession' range_keys'))
          = {| status := 200; body := H_dirs dirs' |}
       /\ dirs ≡ₚ dirs'.
Proof.
  intros Horder Horder' Hlist Hlist' Hkeys.
  assert (Hsub : forall l l' dir,
    (forall k : string, In k (map Key l) -> In k (map Key l')) ->
    is_Some (fold_left listKeys_visit l ∅ !! dir) ->
    fold_left listKeys_visit l' ∅ !! dir = Some true).
  { intros l l' dir Hin Hsome.
    apply dirMap_lookup in Hsome.
    destruct Hsome as [Hempty|(item & a & b & r & Hitem & Hsplit & ->)].
    { rewrite lookup_empty in Hempty. by destruct Hempty. }
    assert (Hk : In (Key item) (map Key l')) by (apply Hin; by apply in_map).
    apply in_map_iff in Hk. destruct Hk as (item' & Hkey & Hitem').
    assert (Hsome' : is_Some (fold_left listKeys_visit l' ∅ !! (a +:+ "/" +:+ b))).
    { apply dirMap_lookup. right. exists item', a, b, r.
      by rewrite Hkey. }
    destruct Hsome' as [v Hv]. rewrite Hv.
    destruct (dirMap_values _ _ _ _ Hv) as [Hempty| ->]; [|done].
    by rewrite lookup_empty in Hempty. }
  assert (Hmap : fold_left listKeys_visit (Contents resp) ∅
                 = fold_left listKeys_visit (Contents resp') ∅).
  { assert (Hto : forall k, In k (map Key (Contents resp)) ->
                               In k (map Key (Contents resp')))
      by (intros k; apply Hkeys).
    assert (Hfrom : forall k, In k (map Key (Contents resp')) ->
                                 In k (map Key (Contents resp)))
      by (intros k; apply Hkeys).
    apply map_eq. intros dir.
    destruct (fold_left listKeys_visit (Contents resp) ∅ !! dir) as [v|] eqn:Hv.
    - assert (H1 : fold_left listKeys_visit (Contents resp') ∅ !! dir = Some true)
        by (apply (Hsub (Contents resp)); [done|by rewrite Hv]).
      assert (H2 : fold_left listKeys_visit (Contents resp) ∅ !! dir = Some true)
        by (apply (Hsub (Contents resp')); [done|by rewrite H1]).
      congruence.
    - destruct (fold_left listKeys_visit (Contents resp') ∅ !! dir)
        as [v'|] eqn:Hv'; [|done].
      assert (H2 : fold_left listKeys_visit (Contents resp) ∅ !! dir = Some true)
        by (apply (Hsub (Contents resp')); [done|by rewrite Hv']).
      congruence. }
  split; [done|].
  rewrite !listKeys_run, Hlist, Hlist'. simpl. do 2 eexists.
  split; [done|]. split; [done|].
  by rewrite Horder, Horder', Hmap.
Qed.

(** X9: [listKeys] answers with at most as many directories as the
    listing holds objects. *)
Theorem listKeys_count_bound
    (BucketName : string) (NewSession : Session)
    (range_keys : gmap string bool -> list string)
    (resp : ListObjectsV2Output) (err : option error) :
  (forall m : gmap string bool, range_keys m ≡ₚ (map_to_list m).*1) ->
  ListObjectsV2 NewSession (bucket_input BucketName) = (resp, err) ->
  exists dirs : list string,
    fst (run (listKeys BucketName NewSession range_keys))
    = {| status := 200; body := H_dirs dirs |}
    /\ (length dirs <= length (Contents resp))%nat.
Proof.
  intros Horder Hlist. rewrite listKeys_run, Hlist. simpl. eexists.
  split; [done|].
  destruct (range_keys_spec range_keys _ (Horder
              (fold_left listKeys_visit (Contents resp) ∅))) as [_ ->].
  etrans; [apply dirMap_size|]. by rewrite map_size_empty.
Qed.

(** X10: every directory [listKeys] answers is cut out of a listed key:
    it is a prefix of that key, it splits on [/] into exactly two pieces,
    and these are the first two pieces of the key. *)
Theorem listKeys_dirs_are_key_prefixes
    (BucketName : string) (NewSession : Session)
    (range_keys : gmap string bool -> list string)
    (resp : ListObjectsV2Output) (err : option error) :
  (forall m : gmap string bool, range_keys m ≡ₚ (map_to_list m).*1) ->
  ListObjectsV2 NewSession (bucket_input BucketName) = (resp, err) ->
  exists dirs : list string,
    fst (run (listKeys BucketName NewSession range_keys))
    = {| status := 200; body := H_dirs dirs |}
    /\ forall dir : string,
         In dir dirs ->
         exists (item : Object) (seg0 seg1 : string) (rest : list string),
           In item (Contents resp)
           /\ Split (Key item) "/" = seg0 :: seg1 :: rest
           /\ String.prefix dir (Key item) = true
           /\ Split dir "/" = [seg0; seg1].
Proof.
  intros Horder Hlist. rewrite listKeys_run, Hlist. simpl. eexists.
  split; [done|]. intros dir Hdir.
  apply (range_keys_spec range_keys _ (Horder _)) in Hdir.
  apply dirMap_lookup in Hdir.
  destruct Hdir as [Hempty|(item & a & b & r & Hitem & Hsplit & ->)].
  { rewrite lookup_empty in Hempty. by destruct Hempty. }
  exists item, a, b, r. repeat split; try done.
  - by apply (Split_two_prefix _ _ _ _ r).
  - rewrite Split_join, Split_no_sep; [done| |].
    + apply (Split_pieces_no_sep (Key item) "/"). rewrite Hsplit.
      right. by left.
    + apply (Split_pieces_no_sep (Key item) "/"). rewrite Hsplit. by left.
Qed.

(** X11: a namespace that holds an object is discovered: when the
    protocol and the network contain no [/] and the listing holds a key
    that begins with [protocol/network/], the prefix [listFiles] and
    [latestSnapshot] ask for, [listKeys] answers [protocol/network]. *)
Theorem listKeys_discovers_namespace
    (BucketName protocol network : string) (NewSession : Session)
    (range_keys : gmap string bool -> list string)
    (resp : ListObjectsV2Output) (err : option error) (item : Object) :
  (forall m : gmap string bool, range_keys m ≡ₚ (map_to_list m).*1) ->
  ListObjectsV2 NewSession (bucket_input BucketName) = (resp, err) ->
  Contains protocol "/" = false ->
  Contains network "/" = false ->
  In item (Contents resp) ->
  String.prefix (namespace_prefix protocol network) (Key item) = true ->
  exists dirs : list string,
    fst (run (listKeys BucketName NewSession range_keys))
    = {| status := 200; body := H_dirs dirs |}
    /\ In (protocol +:+ "/" +:+ network) dirs.
Proof.
  intros Horder Hlist Hp Hn Hitem Hprefix.
  rewrite listKeys_run, Hlist. simpl. eexists. split; [done|].
  apply (range_keys_spec range_keys _ (Horder _)).
  apply dirMap_lookup. right.
  destruct (prefix_split _ _ Hprefix) as [tail Hkey].
  exists item, protocol, network, (Split tail "/"). repeat split; [done|].
  rewrite Hkey. unfold namespace_prefix.
  rewrite !string_append_assoc.
  rewrite (Split_join protocol _ "/" Hp).
  by rewrite (Split_join network _ "/" Hn).
Qed.

(** ** [snapshotInfo], and what the status of an answer tells *)

Lemma snapshotInfo_answer (BucketName protocol network : string)
    (sess : Session) (json_Unmarshal : string -> JSON * option error) :
  fst (run (snapshotInfo BucketName sess json_Unmarshal protocol network))
  = match GetObject sess (info_input BucketName protocol network) with
    | (_, Some e) =>
        if is_no_such_key e
        then {| status := 404; body := H_message "Snapshot not found" |}
        else {| status := 500; body := H_error (Error_ e) |}
    | (result, None) =>
        match ReadAll result with
        | (_, Some e) => {| status := 500; body := H_error (Error_ e) |}
        | (content, None) =>
            match json_Unmarshal content with
            | (_, Some e) => {| status := 500; body := H_error (Error_ e) |}
            | (data, None) => {| status := 200; body := data_body data |}
            end
        end
    end.
Proof.
  destruct (GetObject sess (info_input BucketName protocol network))
    as [result [e|]] eqn:Hget.
  - by rewrite (snapshotInfo_store_error _ _ _ _ _ _ _ Hget).
  - destruct (ReadAll result) as [content [e|]] eqn:Hread.
    + unfold run, snapshotInfo, bind, call.
      change {| goi_Bucket := BucketName;
                goi_Key := protocol +:+ "/" +:+ network +:+ "/snapshot-latest.json" |}
        with (info_input BucketName protocol network).
      by rewrite Hget, Hread.
    + by rewrite (snapshotInfo_decode _ _ _ _ _ _ _ Hget Hread).
Qed.

(** X12: whatever the store and the decoder answer, [snapshotInfo] makes
    exactly one call on the store, a [GetObject] of the key
    [protocol/network/snapshot-latest.json], which is the very key
    [latestSnapshot] never selects; it lists nothing and asks for no
    link. *)
Theorem snapshotInfo_reads_sentinel_only
    (BucketName protocol network : string) (sess : Session)
    (json_Unmarshal : string -> JSON * option error) :
  snd (run (snapshotInfo BucketName sess json_Unmarshal protocol network))
  = [CallGetObject {| goi_Bucket := BucketName;
                      goi_Key := sentinel_key protocol network |}].
Proof.
  rewrite snapshotInfo_calls. unfold info_input, sentinel_key, namespace_prefix.
  by rewrite !string_append_assoc.
Qed.

(** X13: the status of [snapshotInfo] tells what happened: it is 200
    exactly when the object was fetched, read to its end and decoded, and
    then the body is the decoded document; it is 404 exactly when
    [GetObject] failed with the code [NoSuchKey]; in every other case it
    is 500. *)
Theorem snapshotInfo_status
    (BucketName protocol network : string) (sess : Session)
    (json_Unmarshal : string -> JSON * option error) :
  let answer :=
    fst (run (snapshotInfo BucketName sess json_Unmarshal protocol network)) in
  let fetched := GetObject sess (info_input BucketName protocol network) in
  (status answer = 200 <->
   exists (content : string) (data : JSON),
     snd fetched = None
     /\ ReadAll (fst fetched) = (content, None)
     /\ json_Unmarshal content = (data, None)
     /\ body answer = data_body data)
  /\ (status answer = 404 <->
      exists e : error, snd fetched = Some e /\ is_no_such_key e = true)
  /\ (status answer = 200 \/ status answer = 404 \/ status answer = 500).
Proof.
  intros answer fetched. unfold answer, fetched.
  rewrite snapshotInfo_answer.
  destruct (GetObject sess _) as [result [e|]]; simpl.
  - destruct (is_no_such_key e) eqn:Hcode; simpl.
    + split; [|split; [|tauto]].
      * split; [done|]. by intros (? & ? & ? & _).
      * split; [|done]. intros _. by exists e.
    + split; [|split; [|tauto]].
      * split; [done|]. by intros (? & ? & ? & _).
      * split; [done|]. intros (e' & [= <-] & He'). congruence.
  - destruct (ReadAll result) as [content [e|]]; simpl.
    + split; [|split; [|tauto]].
      * split; [done|]. by intros (? & ? & _ & ? & _).
      * split; [done|]. by intros (? & ? & _).
    + destruct (json_Unmarshal content) as [data [e|]] eqn:Hjson; simpl.
      * split; [|split; [|tauto]].
        -- split; [done|]. intros (c & d & _ & [= <-] & Hd & _). congruence.
        -- split; [done|]. by intros (? & ? & _).
      * split; [|split; [|tauto]].
        -- split; [|done]. intros _. by exists content, data.
        -- split; [done|]. by intros (? & ? & _).
Qed.

(** X14: [latestSnapshot] answers 404 exactly when the paged listing
    succeeded and every object of every page has the sentinel key; a
    failure of the store never shows as 404. *)
Theorem latestSnapshot_404_iff
    (BucketName protocol network : string) (sess : Session) :
  status (fst (run (latestSnapshot BucketName sess protocol network))) = 404
  <->
  exists pages : list ListObjectsV2Output,
    ListObjectsV2Pages_feed sess (pages_input BucketName protocol network)
      = (pages, None)
    /\ forall x : Object,
         In x (enumerated pages) -> Key x = sentinel_key protocol network.
Proof.
  rewrite latestSnapshot_run.
  destruct (ListObjectsV2Pages_feed sess _) as [pages [e|]]; simpl.
  { split; [done|]. by intros (? & ? & _). }
  destruct (fold_left _ _ _) as [latest|] eqn:Hsel.
  - split.
    + by destruct (Presign sess _ _) as [urlStr [e|]].
    + intros (pages' & [= <-] & Hall).
      destruct (select_some _ _ _ _ Hsel) as ([?|[Hin Hne]] & _ & _); [done|].
      destruct Hne. by apply Hall.
  - split; [|done]. intros _. exists pages. split; [done|].
    by apply select_none in Hsel as [_ Hall].
Qed.

(** X15: [listFiles] answers 200 exactly when the listing succeeded and
    the link of every object that passes the filter was issued; in every
    other case it answers 500, and it never answers 404. *)
Theorem listFiles_status
    (BucketName protocol network : string) (sess : Session) :
  let answer := fst (run (listFiles BucketName sess protocol network)) in
  (status answer = 200 <->
   exists resp : ListObjectsV2Output,
     ListObjectsV2 sess (list_input BucketName protocol network) = (resp, None)
     /\ forall x : Object,
          In x (List.filter (passes_filter protocol network) (Contents resp)) ->
          presign_fails BucketName sess x = None)
  /\ (status answer = 200 \/ status answer = 500).
Proof.
  intros answer. unfold answer.
  destruct (ListObjectsV2 sess (list_input BucketName protocol network))
    as [resp [e|]] eqn:Hlist.
  - rewrite listFiles_run. cbv zeta. rewrite Hlist. simpl.
    split; [|by right]. split; [done|]. by intros (? & ? & _).
  - destruct (listFiles_outcome BucketName sess protocol network resp Hlist)
      as [[Hall ->]|(ok & bad & e & [tail Hpre] & _ & Hbad & ->)]; simpl.
    + split; [|by left]. split; [|done]. intros _. by exists resp.
    + split; [|by right]. split; [done|].
      intros (resp' & [= <-] & Hall).
      rewrite Hall in Hbad; [done|].
      rewrite Hpre. apply in_or_app. left. apply in_or_app. right. by left.
Qed.

(** ** Start-up *)

(** X16: [init] leaves the process ready exactly when a configuration
    path was given and the four steps succeeded in turn: the path was
    made absolute, the file at the absolute path was opened, its content
    was decoded, and a session was created from the region, the keys and
    the endpoint of the decoded configuration with path-style addressing;
    the configuration and the session it keeps are these. *)
Theorem init_ready_iff
    (sys : System) (configFilePath : string) (config : Config) (sess : Session) :
  fst (init sys configFilePath) = Ready config sess
  <->
  configFilePath <> ""
  /\ exists absPath content : string,
       filepath_Abs sys configFilePath = (absPath, None)
       /\ os_Open sys absPath = (content, None)
       /\ Decode sys content = (config, None)
       /\ session_NewSession sys
            {| aws_Region := Region config;
               aws_Credentials := (AccessKey config, SecretKey config, "");
               aws_Endpoint := Endpoint config;
               aws_S3ForcePathStyle := true |}
          = (sess, None).
Proof.
  unfold init, loadConfig.
  destruct (String.eqb_spec configFilePath "") as [->|Hpath]; simpl.
  { split; [done|]. by intros [? _]. }
  destruct (filepath_Abs sys configFilePath) as [absPath [e|]]; simpl.
  { split; [done|]. by intros (_ & ? & ? & ? & _). }
  destruct (os_Open sys absPath) as [content [e|]] eqn:Hopen; simpl.
  { split; [done|]. intros (_ & a & c & [= <-] & Ho & _). congruence. }
  destruct (Decode sys content) as [config' [e|]] eqn:Hdecode; simpl.
  { split; [done|]. intros (_ & a & c & [= <-] & Ho & Hd & _). congruence. }
  fold (session_config config').
  destruct (session_NewSession sys (session_config config'))
    as [sess' [e|]] eqn:Hsession; simpl.
  - split; [done|].
    intros (_ & a & c & [= <-] & Ho & Hd & Hs).
    assert (c = content) as -> by congruence.
    assert (config = config') as -> by congruence.
    unfold session_config in Hsession. congruence.
  - split.
    + intros [= <- <-]. split; [done|]. by exists absPath, content.
    + intros (_ & a & c & [= <-] & Ho & Hd & Hs).
      assert (c = content) as -> by congruence.
      assert (config = config') as -> by congruence.
      unfold session_config in Hsession. congruence.
Qed.

(** X17: while it starts the process asks for a session only after the
    configuration was loaded, and from that configuration; it closes the
    configuration file whenever it opened it, also when the content does
    not decode; and without a configuration path it stops with "No
    configuration file provided" before touching anything. *)
Theorem init_call_discipline (sys : System) (configFilePath : string) :
  (forall cfg : aws_Config,
      In (SysNewSession cfg) (snd (init sys configFilePath)) ->
      exists config : Config,
        fst (loadConfig sys configFilePath) = inl config
        /\ cfg = session_config config)
  /\ (forall path : string,
        In (SysOpen path) (snd (init sys configFilePath)) ->
        snd (os_Open sys path) = None ->
        In (SysClose path) (snd (init sys configFilePath)))
  /\ (configFilePath = "" ->
      init sys configFilePath = (Fatal "No configuration file provided", [])).
Proof.
  unfold init, loadConfig.
  destruct (String.eqb_spec configFilePath "") as [->|Hpath]; simpl.
  { repeat split; try done; by intros ? []. }
  destruct (filepath_Abs sys configFilePath) as [absPath [e|]]; simpl.
  { split; [|split; [|done]].
    - by intros cfg [?|[]].
    - by intros path [?|[]]. }
  destruct (os_Open sys absPath) as [content [e|]] eqn:Hopen; simpl.
  { split; [|split; [|done]].
    - by intros cfg [?|[?|[]]].
    - intros path [?|[[= <-]|[]]]; [done|]. by rewrite Hopen. }
  destruct (Decode sys content) as [config [e|]]; simpl.
  { split; [|split; [|done]].
    - by intros cfg [?|[?|[?|[?|[]]]]].
    - intros path [?|[[= <-]|[?|[?|[]]]]]; try done. tauto. }
  destruct (session_NewSession sys (session_config config)) as [sess [e|]];
    simpl.
  - split; [|split; [|done]].
    + intros cfg [?|[?|[?|[?|[[= <-]|[]]]]]]; try done. by exists config.
    + intros path [?|[[= <-]|[?|[?|[?|[]]]]]]; try done. tauto.
  - split; [|split; [|done]].
    + intros cfg [?|[?|[?|[?|[[= <-]|[]]]]]]; try done. by exists config.
    + intros path [?|[[= <-]|[?|[?|[?|[]]]]]]; try done. tauto.
Qed.

(** ** [latestSnapshot] and [listFiles] on the same store *)

(** X18: the two handlers agree on the object: when the objects of the
    paged listing are among those of the first page [listFiles] reads,
    their keys begin with [protocol/network/] and every link is issued,
    the object whose size and time [latestSnapshot] answers with, and
    for whose key it asked a link, is one of the files [listFiles]
    answers with, under that key, the same size and the same time, and
    it is not the metadata document.  The two links are issued in two
    requests and are not compared. *)
Theorem latestSnapshot_is_listed
    (BucketName protocol network : string) (sess : Session)
    (resp : ListObjectsV2Output) (pages : list ListObjectsV2Output)
    (urlStr : string) (sz : Z) (modified : option Z) :
  ListObjectsV2 sess (list_input BucketName protocol network) = (resp, None) ->
  ListObjectsV2Pages_feed sess (pages_input BucketName protocol network)
    = (pages, None) ->
  (forall x : Object, In x (enumerated pages) -> In x (Contents resp)) ->
  (forall x : Object,
      In x (enumerated pages) ->
      String.prefix (namespace_prefix protocol network) (Key x) = true) ->
  (forall x : Object,
      In x (List.filter (passes_filter protocol network) (Contents resp)) ->
      presign_fails BucketName sess x = None) ->
  fst (run (latestSnapshot BucketName sess protocol network))
    = {| status := 200; body := H_latest urlStr sz modified |} ->
  exists (latest : Object) (files : list File) (f : File),
    In latest (enumerated pages)
    /\ sz = Size latest /\ modified = LastModified latest
    /\ In (presign_call BucketName latest)
          (snd (run (latestSnapshot BucketName sess protocol network)))
    /\ fst (run (listFiles BucketName sess protocol network))
       = {| status := 200; body := files_body files |}
    /\ In f files
    /\ filename f = Key latest /\ size f = sz /\ last_modified f = modified
    /\ filename f <> sentinel_key protocol network.
Proof.
  intros Hlist Hfeed Hincl Hprefix Hsigned.
  rewrite !latestSnapshot_run, Hfeed.
  destruct (fold_left _ _ _) as [latest|] eqn:Hsel; [|done].
  destruct (select_some _ _ _ _ Hsel) as ([?|[Hin Hne]] & _ & _); [done|].
  destruct (Presign sess _ _) as [urlStr' [e|]] eqn:Hurl; [done|].
  simpl. intros [= -> <- <-].
  rewrite (listFiles_all_signed _ _ _ _ _ Hlist Hsigned).
  exists latest,
         (map (link_of BucketName sess)
            (List.filter (passes_filter protocol network) (Contents resp))),
         (link_of BucketName sess latest).
  do 3 (split; [done|]).
  split; [right; by left|]. split; [done|]. split; [|done].
  apply in_map, filter_In. split; [by apply Hincl|].
  apply prefix_passes_filter. by apply Hprefix.
Qed.

(** ** [listFiles] and the later pages of a listing *)


(** C4, the code on a listing of several pages: on the store [btc] the
    complete listing under [btc/mainnet/] holds four objects on three
    pages, all four pass the filter, and [listFiles] answers 200 with
    the one link of the first page, having asked for no other; on the
    same store [latestSnapshot] reads all the pages and asks a link for
    an object of the second one. *)
Theorem listFiles_reads_first_page_only :
  fst (ListObjectsV2Pages_feed btc (pages_input "snapshots" "btc" "mainnet"))
    = [ {| Contents := [january] |};
        {| Contents := [february; metadata] |};
        {| Contents := [december] |} ]
  /\ List.filter (passes_filter "btc" "mainnet")
       [january; february; metadata; december]
     = [january; february; metadata; december]
  /\ ListObjectsV2 btc (list_input "snapshots" "btc" "mainnet")
     = ({| Contents := [january] |}, None)
  /\ run (listFiles "snapshots" btc "btc" "mainnet")
     = ({| status := 200;
           body := files_body [link_of "snapshots" btc january] |},
        [CallListObjectsV2 (list_input "snapshots" "btc" "mainnet");
         presign_call "snapshots" january])
  /\ snd (run (latestSnapshot "snapshots" btc "btc" "mainnet"))
     = [CallListObjectsV2Pages (pages_input "snapshots" "btc" "mainnet");
        presign_call "snapshots" february].
Proof. repeat split. Qed.

(** * The further properties at concrete stores *)

Lemma latestSnapshot_depends_on_key_set_witness :
  snd (run (latestSnapshot "snapshots" btc "btc" "mainnet"))
  = snd (run (latestSnapshot "snapshots" (verbatim shuffled_listing "")
                "btc" "mainnet")).
Proof.
  apply (latestSnapshot_depends_on_key_set "snapshots" "btc" "mainnet"
           btc (verbatim shuffled_listing "")
           (fst (ListObjectsV2Pages_feed btc
                   (pages_input "snapshots" "btc" "mainnet")))
           [{| Contents := shuffled_listing |}]).
  - reflexivity.
  - reflexivity.
  - intros k. vm_compute. tauto.
Defined.

Lemma latestSnapshot_selection_grows_witness :
  exists o' : Object,
    EachPage (latestSnapshot_page "btc/mainnet/") None
      ([{| Contents := [january] |}] ++ [{| Contents := [february] |}])%list
    = Some o'
    /\ (Key january <=? Key o') = true.
Proof.
  apply (latestSnapshot_selection_grows "btc/mainnet/"
           [{| Contents := [january] |}] [{| Contents := [february] |}] january).
  reflexivity.
Defined.

Lemma latestSnapshot_presign_budget_witness :
  snd (run (latestSnapshot "snapshots" unreachable "btc" "mainnet"))
  = [CallListObjectsV2Pages (pages_input "snapshots" "btc" "mainnet")].
Proof.
  apply (proj2 (latestSnapshot_presign_budget "snapshots" "btc" "mainnet"
                  unreachable) [] connection_refused).
  reflexivity.
Defined.

Lemma listFiles_stops_at_first_failure_witness :
  run (listFiles "snapshots" (verbatim mixed_listing (Key february))
         "btc" "mainnet")
  = ({| status := 500; body := H_error "presign: refused" |},
     CallListObjectsV2 (list_input "snapshots" "btc" "mainnet")
       :: map (presign_call "snapshots") ([january] ++ [february])%list).
Proof.
  apply (listFiles_stops_at_first_failure "snapshots" "btc" "mainnet"
           (verbatim mixed_listing (Key february))
           {| Contents := mixed_listing |} [january] [] february
           (other_error "presign: refused")).
  - reflexivity.
  - reflexivity.
  - intros x [<-|[]]. reflexivity.
  - reflexivity.
Defined.

Lemma listFiles_links_whole_listing_witness :
  run (listFiles "snapshots" btc "btc" "mainnet")
  = ({| status := 200;
        body := files_body (map (link_of "snapshots" btc) [january]) |},
     CallListObjectsV2 (list_input "snapshots" "btc" "mainnet")
       :: map (presign_call "snapshots") [january]).
Proof.
  apply (listFiles_links_whole_listing "snapshots" "btc" "mainnet" btc
           {| Contents := [january] |}).
  - reflexivity.
  - intros item [<-|[]]. reflexivity.
  - intros item [<-|[]]. reflexivity.
Defined.

Lemma passes_filter_iff_witness :
  passes_filter "btc" "mainnet" (obj "x-mainnet-btc.tar" 1 1) = true.
Proof.
  apply (proj2 (passes_filter_iff "btc" "mainnet" (obj "x-mainnet-btc.tar" 1 1))).
  split.
  - exists "x-mainnet-", ".tar". reflexivity.
  - exists "x-", "-btc.tar". reflexivity.
Defined.

Lemma listFiles_links_sentinel_witness :
  exists files : list File,
    fst (run (listFiles "snapshots" (verbatim [february; metadata] "")
                "btc" "mainnet"))
    = {| status := 200; body := files_body files |}
    /\ In (link_of "snapshots" (verbatim [february; metadata] "") metadata) files
    /\ filename (link_of "snapshots" (verbatim [february; metadata] "") metadata)
       = sentinel_key "btc" "mainnet".
Proof.
  apply (listFiles_links_sentinel "snapshots" "btc" "mainnet"
           (verbatim [february; metadata] "")
           {| Contents := [february; metadata] |} metadata).
  - reflexivity.
  - intros x Hx. vm_compute in Hx. destruct Hx as [<-|[<-|[]]]; reflexivity.
  - right. left. reflexivity.
  - reflexivity.
Defined.

Lemma listKeys_depends_on_key_set_witness :
  fold_left listKeys_visit [metadata; february; december; january] ∅
  = fold_left listKeys_visit shuffled_listing ∅.
Proof.
  apply (proj1 (listKeys_depends_on_key_set "snapshots"
           (verbatim [metadata; february; december; january] "")
           (verbatim shuffled_listing "")
           keys_in_order keys_in_order
           {| Contents := [metadata; february; december; january] |}
           {| Contents := shuffled_listing |} None None
           (fun m => reflexivity _) (fun m => reflexivity _)
           eq_refl eq_refl
           (fun k => ltac:(vm_compute; tauto)))).
Defined.

Lemma listKeys_count_bound_witness :
  exists dirs : list string,
    fst (run (listKeys "snapshots" (verbatim shuffled_listing "") keys_in_order))
    = {| status := 200; body := H_dirs dirs |}
    /\ (length dirs <= length shuffled_listing)%nat.
Proof.
  apply (listKeys_count_bound "snapshots" (verbatim shuffled_listing "")
           keys_in_order {| Contents := shuffled_listing |} None).
  - intros m. reflexivity.
  - reflexivity.
Defined.

Lemma listKeys_dirs_are_key_prefixes_witness :
  exists dirs : list string,
    fst (run (listKeys "snapshots" (verbatim mixed_listing "") keys_in_order))
    = {| status := 200; body := H_dirs dirs |}
    /\ forall dir : string,
         In dir dirs ->
         exists (item : Object) (seg0 seg1 : string) (rest : list string),
           In item mixed_listing
           /\ Split (Key item) "/" = seg0 :: seg1 :: rest
           /\ String.prefix dir (Key item) = true
           /\ Split dir "/" = [seg0; seg1].
Proof.
  apply (listKeys_dirs_are_key_prefixes "snapshots" (verbatim mixed_listing "")
           keys_in_order {| Contents := mixed_listing |} None).
  - intros m. reflexivity.
  - reflexivity.
Defined.

Lemma listKeys_discovers_namespace_witness :
  exists dirs : list string,
    fst (run (listKeys "snapshots" (verbatim mixed_listing "") keys_in_order))
    = {| status := 200; body := H_dirs dirs |}
    /\ In "btc/mainnet" dirs.
Proof.
  apply (listKeys_discovers_namespace "snapshots" "btc" "mainnet"
           (verbatim mixed_listing "") keys_in_order
           {| Contents := mixed_listing |} None january).
  - intros m. reflexivity.
  - reflexivity.
  - reflexivity.
  - reflexivity.
  - left. reflexivity.
  - reflexivity.
Defined.

Lemma snapshotInfo_status_witness :
  status (fst (run (snapshotInfo "snapshots" btc literal_decoder
                      "btc" "mainnet"))) = 404.
Proof.
  apply (proj2 (proj1 (proj2 (snapshotInfo_status "snapshots" "btc" "mainnet"
                                btc literal_decoder)))).
  exists (awserr_Error "NoSuchKey" "NoSuchKey: The specified key does not exist.").
  split; reflexivity.
Defined.

Lemma latestSnapshot_404_iff_witness :
  status (fst (run (latestSnapshot "snapshots" btc "eth" "testnet"))) = 404.
Proof.
  apply (proj2 (latestSnapshot_404_iff "snapshots" "eth" "testnet" btc)).
  exists (fst (ListObjectsV2Pages_feed btc
                 (pages_input "snapshots" "eth" "testnet"))).
  split; [reflexivity|].
  intros x Hx. vm_compute in Hx. destruct Hx as [<-|[]]. reflexivity.
Defined.

Lemma listFiles_status_witness :
  status (fst (run (listFiles "snapshots" btc "btc" "mainnet"))) = 200.
Proof.
  apply (proj2 (proj1 (listFiles_status "snapshots" "btc" "mainnet" btc))).
  exists {| Contents := [january] |}. split; [reflexivity|].
  intros x Hx. vm_compute in Hx. destruct Hx as [<-|[]]. reflexivity.
Defined.

Lemma init_ready_iff_witness :
  fst (init demo_system "config.json") = Ready demo_config btc.
Proof.
  apply (proj2 (init_ready_iff demo_system "config.json" demo_config btc)).
  split; [discriminate|].
  exists "/app/config.json", "<config.json>". repeat split.
Defined.

Lemma init_call_discipline_witness :
  In (SysClose "/app/config.json") (snd (init demo_system "config.json")).
Proof.
  apply (proj1 (proj2 (init_call_discipline demo_system "config.json"))).
  - vm_compute. right. left. reflexivity.
  - reflexivity.
Defined.

Lemma latestSnapshot_is_listed_witness :
  exists (latest : Object) (files : list File) (f : File),
    In latest (enumerated [{| Contents := [january; february] |}])
    /\ 20%Z = Size latest /\ Some 100%Z = LastModified latest
    /\ In (presign_call "snapshots" latest)
          (snd (run (latestSnapshot "snapshots"
                       (verbatim [january; february] "") "btc" "mainnet")))
    /\ fst (run (listFiles "snapshots" (verbatim [january; february] "")
                   "btc" "mainnet"))
       = {| status := 200; body := files_body files |}
    /\ In f files
    /\ filename f = Key latest /\ size f = 20%Z
    /\ last_modified f = Some 100%Z
    /\ filename f <> sentinel_key "btc" "mainnet".
Proof.
  apply (latestSnapshot_is_listed "snapshots" "btc" "mainnet"
           (verbatim [january; february] "")
           {| Contents := [january; february] |}
           [{| Contents := [january; february] |}]
           "https://store/snapshots/btc/mainnet/2024-02-01T00-00-00.tar.gz").
  - reflexivity.
  - reflexivity.
  - intros x Hx. exact Hx.
  - intros x Hx. vm_compute in Hx. destruct Hx as [<-|[<-|[]]]; reflexivity.
  - intros x Hx. vm_compute in Hx. destruct Hx as [<-|[<-|[]]]; reflexivity.
  - reflexivity.
Defined.

